(** * hive-stats: weekly activity aggregation and dashboard insights

    A shallow embedding of the three programs of the repository that carry
    its logic:

    - [fetch-hive-stats.ts]: the yearly aggregation query against HiveSQL
      ([fetchWeeklyStats]) and the keyed write into the local SQLite table
      [weekly_stats] ([saveToDatabase]);
    - [server.ts]: the read side ([getWeeklyStats], [calculateCorrelation],
      [getStats]) that joins [weekly_stats] with [price_history] and derives
      the summary, the year-over-year view, the correlation and the tier
      distribution;
    - [fetch-hive-price.ts]: the positivity filter of [fetchDailyHistory] and
      the keyed write [savePrices].

    SQL queries are embedded as list programs: a table is the list of its
    rows in rowid (insertion) order, [GROUP BY] is [group_by], [ORDER BY] a
    stable insertion sort, aggregates are folds, and SQL [NULL] / a missing
    row is [None].

    Numbers.  SQLite [INTEGER] columns are [Z].  A finite SQLite [REAL]
    value or JavaScript number is the rational it stands for, in canonical
    form ([Qc]); the non-finite results a JavaScript division can produce
    are the extra constructors of [num].  Every arithmetic operation of the
    run time returns the exact result rounded to a double: the rounding is
    the parameter [fl] of the definitions of [Server], and so are SQLite's
    [AVG] and [Math.sqrt].  [JS.exact] is the arithmetic without rounding,
    [Binary64.round] is round-to-nearest on a significand of 53 bits.
    Integers are taken to be below 2^53, where they are doubles; overflow,
    subnormal numbers and the sign of zero are not modelled. *)

From Stdlib Require Import ZArith QArith Qcanon Qround.
From stdpp Require Import base tactics option list numbers strings sorting.

Local Open Scope Z_scope.

(** ** Calendar dates

    SQLite stores dates as [TEXT] in the form [YYYY-MM-DD] and compares them
    as text; on that zero-padded form the text order is the order of the
    triple (year, month, day).  Date arithmetic ([date(d, '+7 days')] in
    SQLite, [DATEADD(WEEK, n, DATEFROMPARTS(y, 1, 1))] in T-SQL) goes through
    the day number of the proleptic Gregorian calendar. *)

Module Date.

Record t := mk { year : Z; month : Z; day : Z }.

#[global] Instance eq_dec : EqDecision t.
Proof. solve_decision. Defined.

(** Days since 1970-01-01. *)
Definition to_days (d : t) : Z :=
  let y := if month d <=? 2 then year d - 1 else year d in
  let era := y / 400 in
  let yoe := y - era * 400 in
  let mp := if month d >? 2 then month d - 3 else month d + 9 in
  let doy := (153 * mp + 2) / 5 + day d - 1 in
  let doe := yoe * 365 + yoe / 4 - yoe / 100 + doy in
  era * 146097 + doe - 719468.

Definition of_days (z0 : Z) : t :=
  let z := z0 + 719468 in
  let era := z / 146097 in
  let doe := z - era * 146097 in
  let yoe := (doe - doe / 1460 + doe / 36524 - doe / 146096) / 365 in
  let y := yoe + era * 400 in
  let doy := doe - (365 * yoe + yoe / 4 - yoe / 100) in
  let mp := (5 * doy + 2) / 153 in
  let d := doy - (153 * mp + 2) / 5 + 1 in
  let m := if mp <? 10 then mp + 3 else mp - 9 in
  mk (if m <=? 2 then y + 1 else y) m d.

Definition add_days (d : t) (n : Z) : t := of_days (to_days d + n).

(** Text comparison of two [YYYY-MM-DD] strings. *)
Definition ltb (a b : t) : bool :=
  (year a <? year b)
  || ((year a =? year b)
      && ((month a <? month b)
          || ((month a =? month b) && (day a <? day b)))).

Definition leb (a b : t) : bool := negb (ltb b a).

(** [DATEFROMPARTS(y, 1, 1)] *)
Definition first_of_year (y : Z) : t := mk y 1 1.

End Date.

(** ** JavaScript numbers *)

Module JS.

Local Open Scope Qc_scope.

(** A JavaScript [number]: finite, or one of the three non-finite values. *)
Inductive num : Type :=
| Fin (q : Qc)
| PInf
| NInf
| NaN.

#[global] Instance num_eq_dec : EqDecision num.
Proof. solve_decision. Defined.

(** An integer as a number. *)
Abbreviation of_Z := Qc_of_Z.

Definition Qc_eqb (a b : Qc) : bool := bool_decide (a = b).
Definition Qc_ltb (a b : Qc) : bool := bool_decide (a < b).

(** [ToBoolean] on a number: [0] and [NaN] are falsy. *)
Definition truthy (x : num) : bool :=
  match x with
  | Fin q => negb (Qc_eqb q 0)
  | PInf | NInf => true
  | NaN => false
  end.

(** No rounding: the arithmetic of the rationals. *)
Definition exact (q : Qc) : Qc := q.

(** A result as the run time returns it: a finite one rounded by [fl]. *)
Definition rounded (fl : Qc → Qc) (x : num) : num :=
  match x with
  | Fin q => Fin (fl q)
  | other => other
  end.

(** The exact value of [x - y]. *)
Definition sub (x y : num) : num :=
  match x, y with
  | Fin a, Fin b => Fin (a - b)
  | NaN, _ | _, NaN => NaN
  | PInf, PInf | NInf, NInf => NaN
  | PInf, _ | _, NInf => PInf
  | NInf, _ | _, PInf => NInf
  end.

(** Sign of a finite number: [-1], [0] or [1]. *)
Definition sgn (q : Qc) : Z :=
  if Qc_ltb 0 q then 1%Z else if Qc_ltb q 0 then (-1)%Z else 0%Z.

(** A rounding that keeps the sign of what it rounds, as rounding to the
    nearest double does as long as nothing underflows to zero. *)
Definition keeps_sign (fl : Qc → Qc) : Prop := ∀ q, sgn (fl q) = sgn q.

Definition inf_of_sign (s : Z) : num :=
  if (0 <? s)%Z then PInf else if (s <? 0)%Z then NInf else NaN.

Definition sign_of (x : num) : Z :=
  match x with
  | Fin q => sgn q
  | PInf => 1%Z
  | NInf => (-1)%Z
  | NaN => 0%Z
  end.

(** The exact value of [x * y]: a product with an infinity is an infinity
    of the product's sign, and [0 * Infinity] is [NaN]. *)
Definition mul (x y : num) : num :=
  match x, y with
  | Fin a, Fin b => Fin (a * b)
  | NaN, _ | _, NaN => NaN
  | _, _ => inf_of_sign (sign_of x * sign_of y)
  end.

(** The exact value of [x / y]: a non-zero number divided by zero is an
    infinity, [0 / 0] is [NaN], a finite number divided by an infinity is
    [0]. *)
Definition div (x y : num) : num :=
  match x, y with
  | Fin a, Fin b => if Qc_eqb b 0 then inf_of_sign (sgn a) else Fin (a / b)
  | NaN, _ | _, NaN => NaN
  | Fin _, _ => Fin 0
  | _, Fin b => inf_of_sign (sign_of x * (if Qc_ltb b 0 then -1 else 1))
  | _, _ => NaN
  end.

Definition pow10 (d : nat) : Z := 10 ^ Z.of_nat d.

(** [Number(q.toFixed(d))] on a non-negative finite number: the integer [n]
    with [n / 10^d] closest to [q], the larger one on a tie.  [toFixed]
    prints from the exact value of the double [q]; the number read back is
    kept as the decimal it prints as. *)
Definition round_digits_nonneg (d : nat) (q : Qc) : Qc :=
  Q2Qc (inject_Z (Qfloor (q * of_Z (pow10 d) + Q2Qc (1 # 2))) / inject_Z (pow10 d)).

(** [Number(q.toFixed(d))]: [toFixed] prints the sign and rounds the
    magnitude; from [10^21] on it prints the number itself. *)
Definition toFixed_finite (d : nat) (q : Qc) : Qc :=
  if Qc_ltb q 0 then
    (if Qc_ltb (- q) (of_Z (10 ^ 21)) then - round_digits_nonneg d (- q) else q)
  else
    (if Qc_ltb q (of_Z (10 ^ 21)) then round_digits_nonneg d q else q).

(** [Number(x.toFixed(d))]: the non-finite values print as their names and
    read back as themselves. *)
Definition toFixed (d : nat) (x : num) : num :=
  match x with
  | Fin q => Fin (toFixed_finite d q)
  | other => other
  end.

(** [Math.round]: the nearest integer, towards +infinity on a tie. *)
Definition Math_round (q : Qc) : Z := Qfloor (q + Q2Qc (1 # 2)).

End JS.

(** ** Round to nearest on doubles *)

Module Binary64.

(** [n / d] rounded to the nearest integer, a tie to the even one
    ([0 <= n], [0 < d]). *)
Definition nearest_even (n d : Z) : Z :=
  let q := n / d in
  let r := n mod d in
  if 2 * r <? d then q
  else if d <? 2 * r then q + 1
  else if Z.even q then q else q + 1.

(** The positive rational [n / d] divided by [2 ^ e], as a fraction of
    integers. *)
Definition scaled (n d : positive) (e : Z) : Z * Z :=
  if 0 <=? e then (Z.pos n, Z.pos d * 2 ^ e) else (Z.pos n * 2 ^ (- e), Z.pos d).

(** The exponent [e] of the unit in the last place of [n / d]:
    [2^52 <= (n / d) / 2^e < 2^53]. *)
Definition exponent (n d : positive) : Z :=
  let e := Z.log2 (Z.pos n) - Z.log2 (Z.pos d) - 52 in
  let '(sn, sd) := scaled n d e in
  if sn <? 2 ^ 52 * sd then e - 1 else e.

(** The double nearest to [n / d]: a significand of 53 bits, rounded to
    nearest, a tie to the even significand. *)
Definition round_pos (n d : positive) : Q :=
  let e := exponent n d in
  let '(sn, sd) := scaled n d e in
  let m := nearest_even sn sd in
  if 0 <=? e then inject_Z (m * 2 ^ e) else Qmake m (Z.to_pos (2 ^ (- e))).

Definition round (q : Qc) : Qc :=
  match Qnum q with
  | Z0 => q
  | Z.pos n => Q2Qc (round_pos n (Qden q))
  | Z.neg n => (- Q2Qc (round_pos n (Qden q)))%Qc
  end.

(** [AVG] as a sum from the first row to the last and one division, each
    rounded. *)
Definition avg (l : list Qc) : Qc :=
  round (foldl (λ a b, round (a + b)%Qc) (Q2Qc 0) l / JS.of_Z (Z.of_nat (length l)))%Qc.

End Binary64.

(** ** SQL building blocks *)

Section Relational.
Context {A : Type}.

(** [GROUP BY key]: one group per distinct key, holding the rows with that
    key.  SQL leaves the order of the groups open; every query below that
    returns rows ends in an [ORDER BY] on a unique key. *)
Definition group_by {K : Type} `{EqDecision K} (key : A → K) (l : list A)
  : list (K * list A) :=
  (λ k, (k, filter (λ a, key a = k) l)) <$> remove_dups (key <$> l).

(** [ORDER BY]: insertion sort for the order [le]; rows that compare equal
    keep the order in which the scan produced them. *)
Fixpoint insert_sorted (le : A → A → bool) (x : A) (l : list A) : list A :=
  match l with
  | [] => [x]
  | y :: l' => if le x y then x :: y :: l' else y :: insert_sorted le x l'
  end.

Definition order_by (le : A → A → bool) (l : list A) : list A :=
  foldr (insert_sorted le) [] l.

(** [SUM(f)] over the rows of a group (never empty). *)
Definition sum_of (f : A → Z) (l : list A) : Z :=
  foldr (λ a acc, f a + acc) 0 l.

(** [SUM(CASE WHEN p THEN 1 ELSE 0 END)] *)
Definition count_when (p : A → bool) (l : list A) : Z :=
  sum_of (λ a, if p a then 1 else 0) l.

End Relational.

(** Ascending order on the key (year, week). *)
Definition key_leb (a b : Z * Z) : bool :=
  (a.1 <? b.1) || ((a.1 =? b.1) && (a.2 <=? b.2)).

(** ** The two SQLite tables *)

Module weekly_stats.

(** A row of [weekly_stats]; [PRIMARY KEY (year, week)]. *)
Record row := mk {
  year : Z;
  week : Z;
  week_start : Date.t;
  total_users : Z;
  total_posts : Z;
  total_comments : Z;
  ultra_active_users : Z;
  very_active_users : Z;
  active_users : Z;
  occasional_users : Z;
  low_activity_users : Z;
  fetched_at : string;
}.

#[global] Instance eq_dec : EqDecision row.
Proof. solve_decision. Defined.

Definition key (r : row) : Z * Z := (year r, week r).

(** The table, in rowid order. *)
Abbreviation table := (list row).

(** The primary-key constraint. *)
Definition pk_unique (db : table) : Prop := NoDup (key <$> db).

End weekly_stats.

Module price_history.

(** A row of [price_history]; [date TEXT PRIMARY KEY]. *)
Record row := mk {
  date : Date.t;
  coin : string;
  price_usd : Qc;
  fetched_at : string;
}.

Abbreviation table := (list row).

End price_history.

(** ** fetch-hive-stats.ts *)

Module Fetch.

(** A row of HiveSQL's [Comments] table, which holds posts and comments
    alike; only the columns the query reads.  [created] is kept at day
    resolution: the query uses it through its year, its week and a
    comparison with the first day of a year. *)
Record Comment := {
  author : string;
  created : Date.t;
  parent_author : string;
}.

Record WeeklyStats := {
  year : Z;
  week : Z;
  week_start : Date.t;
  total_users : Z;
  total_posts : Z;
  total_comments : Z;
  ultra_active_users : Z;
  very_active_users : Z;
  active_users : Z;
  occasional_users : Z;
  low_activity_users : Z;
}.

#[global] Instance WeeklyStats_eq_dec : EqDecision WeeklyStats.
Proof. solve_decision. Defined.

(** Rows of the common table expressions of the query. *)
Module UserWeeklyActivity.
Record row := mk {
  author : string; year : Z; week : Z; post_count : Z; comment_count : Z;
}.
Definition key (r : row) : string * Z * Z := (author r, year r, week r).
End UserWeeklyActivity.

Module UserWeeklyTotals.
Record row := mk {
  author : string; year : Z; week : Z;
  posts : Z; comments : Z; total_activity : Z;
}.
Definition key (r : row) : Z * Z := (year r, week r).
End UserWeeklyTotals.

Section Query.

(** [DATEPART(WEEK, d)] of the SQL Server session: its week boundaries
    depend on the server's [DATEFIRST] setting, so it is a parameter. *)
Variable datepart_week : Date.t → Z.

(** [created >= DATEFROMPARTS(@year, 1, 1)
     AND created < DATEFROMPARTS(@year + 1, 1, 1)] *)
Definition in_year (yr : Z) (c : Comment) : bool :=
  Date.leb (Date.first_of_year yr) (created c)
  && Date.ltb (created c) (Date.first_of_year (yr + 1)).

(** [parent_author = ''] *)
Definition is_post (c : Comment) : bool :=
  bool_decide (parent_author c = EmptyString).

(** [author, DATEPART(YEAR, created), DATEPART(WEEK, created)] *)
Definition activity_key (c : Comment) : string * Z * Z :=
  (author c, Date.year (created c), datepart_week (created c)).

Definition post_rows (Comments : list Comment) (yr : Z)
  : list UserWeeklyActivity.row :=
  (λ '(k, g), UserWeeklyActivity.mk k.1.1 k.1.2 k.2 (Z.of_nat (length g)) 0)
    <$> group_by activity_key
          (filter (λ c, is_post c && in_year yr c) Comments).

Definition comment_rows (Comments : list Comment) (yr : Z)
  : list UserWeeklyActivity.row :=
  (λ '(k, g), UserWeeklyActivity.mk k.1.1 k.1.2 k.2 0 (Z.of_nat (length g)))
    <$> group_by activity_key
          (filter (λ c, negb (is_post c) && in_year yr c) Comments).

(** [... UNION ALL ...] *)
Definition UserWeeklyActivity_cte (Comments : list Comment) (yr : Z)
  : list UserWeeklyActivity.row :=
  post_rows Comments yr ++ comment_rows Comments yr.

Definition UserWeeklyTotals_cte (Comments : list Comment) (yr : Z)
  : list UserWeeklyTotals.row :=
  (λ '(k, g),
     let posts := sum_of UserWeeklyActivity.post_count g in
     let comments := sum_of UserWeeklyActivity.comment_count g in
     UserWeeklyTotals.mk k.1.1 k.1.2 k.2 posts comments (posts + comments))
    <$> group_by UserWeeklyActivity.key (UserWeeklyActivity_cte Comments yr).

Definition tier_ultra (t : Z) : bool := 50 <=? t.
Definition tier_very (t : Z) : bool := (20 <=? t) && (t <? 50).
Definition tier_active (t : Z) : bool := (10 <=? t) && (t <? 20).
Definition tier_occasional (t : Z) : bool := (3 <=? t) && (t <? 10).
Definition tier_low (t : Z) : bool := (1 <=? t) && (t <? 3).

(** One [WeeklyAggregates] row, with the [week_start] column of the final
    [SELECT]: [DATEADD(WEEK, wa.week - 1, DATEFROMPARTS(wa.year, 1, 1))]. *)
Definition aggregate (k : Z * Z) (g : list UserWeeklyTotals.row)
  : WeeklyStats :=
  let tier p := count_when (λ u, p (UserWeeklyTotals.total_activity u)) g in
  {| year := k.1;
     week := k.2;
     week_start := Date.add_days (Date.first_of_year k.1) (7 * (k.2 - 1));
     total_users :=
       Z.of_nat (length (remove_dups (UserWeeklyTotals.author <$> g)));
     total_posts := sum_of UserWeeklyTotals.posts g;
     total_comments := sum_of UserWeeklyTotals.comments g;
     ultra_active_users := tier tier_ultra;
     very_active_users := tier tier_very;
     active_users := tier tier_active;
     occasional_users := tier tier_occasional;
     low_activity_users := tier tier_low |}.

Definition stats_key (s : WeeklyStats) : Z * Z := (year s, week s).

(** The whole query of [fetchWeeklyStats], on the contents of the
    [Comments] table. *)
Definition fetchWeeklyStats (Comments : list Comment) (yr : Z)
  : list WeeklyStats :=
  order_by (λ a b, key_leb (stats_key a) (stats_key b))
    ((λ '(k, g), aggregate k g)
       <$> group_by UserWeeklyTotals.key (UserWeeklyTotals_cte Comments yr)).

(** The identifying columns of a [UserWeeklyTotals] row. *)
Definition totals_id (u : UserWeeklyTotals.row) : string * Z * Z :=
  (UserWeeklyTotals.author u, UserWeeklyTotals.year u, UserWeeklyTotals.week u).

(** Some post or comment of [Comments] is read by the query of year [yr]
    and filed under the account, year and week [k]. *)
Definition counted (Comments : list Comment) (yr : Z) (k : string * Z * Z) : Prop :=
  ∃ c, c ∈ Comments ∧ in_year yr c ∧ activity_key c = k.

(** The posts and comments of year [yr] that fall into week [w] of
    year [y]. *)
Definition actions_of_week (Comments : list Comment) (yr y w : Z) : list Comment :=
  filter (λ c, in_year yr c ∧ Date.year (created c) = y ∧ datepart_week (created c) = w)
    Comments.

End Query.

(** [saveToDatabase]: one [INSERT OR REPLACE] per row.  SQLite deletes the
    row that holds the key, if any, and appends the new row under a fresh
    rowid; the column [fetched_at] takes its default, the time of the
    statement. *)
Definition to_row (now : string) (s : WeeklyStats) : weekly_stats.row :=
  weekly_stats.mk (year s) (week s) (week_start s) (total_users s)
    (total_posts s) (total_comments s) (ultra_active_users s)
    (very_active_users s) (active_users s) (occasional_users s)
    (low_activity_users s) now.

Definition insert_run (now : string) (db : weekly_stats.table)
    (s : WeeklyStats) : weekly_stats.table :=
  filter (λ r, weekly_stats.key r ≠ stats_key s) db ++ [to_row now s].

(** The loop of the transaction; [clock i] is the time at which the [i]-th
    statement of the batch runs. *)
Fixpoint insertMany (clock : nat → string) (i : nat)
    (db : weekly_stats.table) (stats : list WeeklyStats)
  : weekly_stats.table :=
  match stats with
  | [] => db
  | s :: rest => insertMany clock (S i) (insert_run (clock i) db s) rest
  end.

Definition saveToDatabase (clock : nat → string) (db : weekly_stats.table)
    (stats : list WeeklyStats) : weekly_stats.table :=
  insertMany clock 0 db stats.

(** The rows of a batch that are still in the table when the batch is done:
    a row is replaced by a later row of the batch with the same key. *)
Fixpoint last_writes (stats : list WeeklyStats) : list WeeklyStats :=
  match stats with
  | [] => []
  | s :: rest =>
      (if decide (stats_key s ∈ stats_key <$> rest) then [] else [s])
        ++ last_writes rest
  end.

(** The [WeeklyStats] columns of a stored row: everything but
    [fetched_at]. *)
Definition of_row (r : weekly_stats.row) : WeeklyStats :=
  {| year := weekly_stats.year r;
     week := weekly_stats.week r;
     week_start := weekly_stats.week_start r;
     total_users := weekly_stats.total_users r;
     total_posts := weekly_stats.total_posts r;
     total_comments := weekly_stats.total_comments r;
     ultra_active_users := weekly_stats.ultra_active_users r;
     very_active_users := weekly_stats.very_active_users r;
     active_users := weekly_stats.active_users r;
     occasional_users := weekly_stats.occasional_users r;
     low_activity_users := weekly_stats.low_activity_users r |}.

End Fetch.


(** ** fetch-hive-price.ts *)

Module FetchPrice.

(** One entry of CryptoCompare's [Data.Data]: a Unix time and the closing
    price of that day. *)
Record Candle := { time : Z; close : Qc }.

(** The part of [fetchDailyHistory] after the HTTP exchange: days without
    trading are dropped, the time becomes the UTC date
    ([new Date(time * 1000).toISOString().split("T")[0]]). *)
Definition fetchDailyHistory (data : list Candle) : list (Date.t * Qc) :=
  (λ d, (Date.of_days (time d / 86400), close d))
    <$> filter (λ d, JS.Qc_ltb (Q2Qc 0) (close d)) data.

(** [INSERT OR REPLACE INTO price_history (date, coin, price_usd)] *)
Definition insert_run (now : string) (db : price_history.table)
    (coin : string) (p : Date.t * Qc) : price_history.table :=
  filter (λ r, price_history.date r ≠ p.1) db
    ++ [price_history.mk p.1 coin p.2 now].

Fixpoint insertMany (clock : nat → string) (i : nat)
    (db : price_history.table) (coin : string) (prices : list (Date.t * Qc))
  : price_history.table :=
  match prices with
  | [] => db
  | p :: rest => insertMany clock (S i) (insert_run (clock i) db coin p) coin rest
  end.

Definition savePrices (clock : nat → string) (db : price_history.table)
    (coin : string) (prices : list (Date.t * Qc)) : price_history.table :=
  insertMany clock 0 db coin prices.

(** What [fetchDailyHistory] guarantees of the table it feeds. *)
Definition positive_prices (db : price_history.table) : Prop :=
  Forall (λ r, (0 < price_history.price_usd r)%Qc) db.

End FetchPrice.

(** ** server.ts *)

Module Server.

Import JS.
Local Open Scope Qc_scope.

(** A row of [getWeeklyStats]: the columns [ws.*] and the joined average. *)
Record WeeklyStatsRow := {
  ws : weekly_stats.row;
  avg_price : option Qc;
}.

Definition total_users (w : WeeklyStatsRow) : Z := weekly_stats.total_users (ws w).

Record Summary := {
  totalWeeks : Z;
  totalUserWeeks : option Z;
  totalPosts : option Z;
  totalComments : option Z;
  avgWeeklyUsers : Z;
  peakWeeklyUsers : Z;
  peakWeekDate : Date.t;
  lastCompleteWeekUsers : Z;
  lastCompleteWeekDate : Date.t;
}.

Module YearOverYear.
Record t := mk {
  year : Z;
  avgWeeklyUsers : Z;
  avgPrice : option Qc;
  totalPosts : Z;
  totalComments : Z;
  changePercent : option num;
}.
End YearOverYear.

Record Correlations := {
  priceUserCorrelation : num;
  description : string;
}.

Record ActivityDistribution := {
  ultraActive : num;
  veryActive : num;
  active : num;
  occasional : num;
  lowActivity : num;
}.

Record Insights := {
  yearOverYear : list YearOverYear.t;
  correlations : Correlations;
  activityDistribution : ActivityDistribution;
}.

Record StatsResponse := {
  weeklyStats : list WeeklyStatsRow;
  summary : Summary;
  insights : Insights;
}.

(** Exceptions of the JavaScript run time that [getStats] can raise. *)
Inductive exn := TypeError.

Inductive result (A : Type) :=
| Ok (a : A)
| Throw (e : exn).
Arguments Ok {A} a.
Arguments Throw {A} e.

Definition bind {A B} (r : result A) (k : A → result B) : result B :=
  match r with
  | Ok a => k a
  | Throw e => Throw e
  end.

(** Reading a property of the result of [.get()]: the row when the query
    produced one; a [TypeError] when it produced none. *)
Definition property_of {A} (row : option A) : result A :=
  match row with
  | Some r => Ok r
  | None => Throw TypeError
  end.

(** [Array.prototype.reduce] with an initial value; the callback receives
    the accumulator, the element and its index. *)
Fixpoint reduce_from {A B} (f : B → A → nat → B) (i : nat) (acc : B)
    (l : list A) : B :=
  match l with
  | [] => acc
  | a :: l' => reduce_from f (S i) (f acc a i) l'
  end.

Definition reduce {A B} (f : B → A → nat → B) (init : B) (l : list A) : B :=
  reduce_from f 0%nat init l.

Definition of_nat (n : nat) : Qc := of_Z (Z.of_nat n).


(** [SUM(e)] without [GROUP BY]: [NULL] on an empty table. *)
Definition sql_sum {A} (f : A → Z) (l : list A) : option Z :=
  match l with
  | [] => None
  | _ => Some (sum_of f l)
  end.

(** The [ON] condition of the join in [getWeeklyStats]. *)
Definition price_joins (w : weekly_stats.row) (p : price_history.row) : bool :=
  Date.leb (weekly_stats.week_start w) (price_history.date p)
  && Date.ltb (price_history.date p) (Date.add_days (weekly_stats.week_start w) 7)
  && (((weekly_stats.year w <? 2020)%Z
       && bool_decide (price_history.coin p = "steem"%string))
      || ((2020 <=? weekly_stats.year w)%Z
          && bool_decide (price_history.coin p = "hive"%string))).

Section WithArithmetic.

(** The arithmetic of the run time.

    [fl] rounds the exact result of an addition, a subtraction, a
    multiplication or a division of JavaScript to a double.

    [AVG] is SQLite's aggregate on a non-empty column: a double near the
    mean of the values, computed by a summation that differs between the
    versions of SQLite.

    [Math_sqrt] is [Math.sqrt] on the non-negative numbers. *)
Variable fl : Qc → Qc.
Variable AVG : list Qc → Qc.
Variable Math_sqrt : Qc → Qc.

(** [AVG(e)]: [NULL] when no row contributes. *)
Definition sql_avg (l : list Qc) : option Qc :=
  match l with
  | [] => None
  | _ => Some (AVG l)
  end.

(** [getWeeklyStats].  The primary key of [weekly_stats] makes every group
    of [GROUP BY ws.year, ws.week] the join of a single [ws] row; a row
    without a matching price keeps [avg_price = NULL]. *)
Definition getWeeklyStats (db : weekly_stats.table) (ph : price_history.table)
  : list WeeklyStatsRow :=
  order_by (λ a b, key_leb (weekly_stats.key (ws a)) (weekly_stats.key (ws b)))
    ((λ w, {| ws := w;
              avg_price :=
                sql_avg (price_history.price_usd <$> filter (price_joins w) ph) |})
       <$> db).

Definition js_sqrt (q : Qc) : num :=
  if Qc_ltb q 0 then NaN else Fin (Math_sqrt q).

Definition calculateCorrelation (x y : list Qc) : num :=
  let n := length x in
  if (n =? 0)%nat || negb (length x =? length y)%nat then Fin 0 else
  let sumX := reduce (λ a b _, fl (a + b)) 0 x in
  let sumY := reduce (λ a b _, fl (a + b)) 0 y in
  let sumXY := reduce (λ a xi i, fl (a + fl (xi * default 0 (y !! i)))) 0 x in
  let sumX2 := reduce (λ a xi _, fl (a + fl (xi * xi))) 0 x in
  let sumY2 := reduce (λ a yi _, fl (a + fl (yi * yi))) 0 y in
  let numerator := fl (fl (of_nat n * sumXY) - fl (sumX * sumY)) in
  let denominator :=
    js_sqrt (fl (fl (fl (of_nat n * sumX2) - fl (sumX * sumX))
                 * fl (fl (of_nat n * sumY2) - fl (sumY * sumY)))) in
  if bool_decide (denominator = Fin 0) then Fin 0
  else rounded fl (div (Fin numerator) denominator).

(** The rows of [yearRows]. *)
Record YearRow := {
  yr_year : Z;
  avg_weekly_users : Qc;
  yr_total_posts : Z;
  yr_total_comments : Z;
}.

Definition yearRows (db : weekly_stats.table) : list YearRow :=
  order_by (λ a b, (yr_year a <=? yr_year b)%Z)
    ((λ '(y, g),
        {| yr_year := y;
           avg_weekly_users := AVG ((λ r, of_Z (weekly_stats.total_users r)) <$> g);
           yr_total_posts := sum_of weekly_stats.total_posts g;
           yr_total_comments := sum_of weekly_stats.total_comments g |})
       <$> group_by weekly_stats.year db).

(** [SELECT AVG(price_usd) FROM price_history WHERE strftime('%Y', date) = ?]
    with [String(row.year)] as parameter: on four-digit years the two texts
    are equal when the years are. *)
Definition priceRow (ph : price_history.table) (y : Z) : option Qc :=
  sql_avg (price_history.price_usd
             <$> filter (λ p, Date.year (price_history.date p) = y) ph).

Definition prevYear (rows : list YearRow) (i : nat) : option YearRow :=
  if (0 <? i)%nat then rows !! (i - 1)%nat else None.

(** [((a - p) / p) * 100], each of the three operations rounded. *)
Definition change (a p : Qc) : num :=
  rounded fl
    (mul (rounded fl (div (rounded fl (sub (Fin a) (Fin p))) (Fin p)))
         (Fin (of_Z 100))).

(** The constant [changePercent] of the callback: a number, or [null]. *)
Definition changePercent_raw (row : YearRow) (prev : option YearRow) : option num :=
  match prev with
  | Some p => Some (change (avg_weekly_users row) (avg_weekly_users p))
  | None => None
  end.

(** [v ? Number(v.toFixed(d)) : null] *)
Definition fixed_if_truthy (d : nat) (v : option num) : option num :=
  match v with
  | Some x => if truthy x then Some (toFixed d x) else None
  | None => None
  end.

Definition yearOverYear_of (db : weekly_stats.table) (ph : price_history.table)
  : list YearOverYear.t :=
  let rows := yearRows db in
  imap (λ i row,
          let avg_price := priceRow ph (yr_year row) in
          let changePercent := changePercent_raw row (prevYear rows i) in
          {| YearOverYear.year := yr_year row;
             YearOverYear.avgWeeklyUsers := Math_round (avg_weekly_users row);
             YearOverYear.avgPrice :=
               match avg_price with
               | Some p => if truthy (Fin p) then Some (toFixed_finite 4 p) else None
               | None => None
               end;
             YearOverYear.totalPosts := yr_total_posts row;
             YearOverYear.totalComments := yr_total_comments row;
             YearOverYear.changePercent := fixed_if_truthy 1 changePercent |})
       rows.

(** [w.avg_price !== null && w.avg_price > 0] *)
Definition has_price (w : WeeklyStatsRow) : bool :=
  match avg_price w with
  | Some p => Qc_ltb 0 p
  | None => false
  end.

Definition dataWithPrice (db : weekly_stats.table) (ph : price_history.table)
  : list WeeklyStatsRow :=
  filter (λ w, has_price w) (getWeeklyStats db ph).

Definition prices_of (db : weekly_stats.table) (ph : price_history.table) : list Qc :=
  (λ w, default 0 (avg_price w)) <$> dataWithPrice db ph.

Definition users_of (db : weekly_stats.table) (ph : price_history.table) : list Qc :=
  (λ w, of_Z (total_users w)) <$> dataWithPrice db ph.

(** The constant [correlation] of [getStats]. *)
Definition correlation (db : weekly_stats.table) (ph : price_history.table) : num :=
  calculateCorrelation (prices_of db ph) (users_of db ph).

(** [a > b] and [a < b] on numbers; every comparison with [NaN] is false. *)
Definition num_ltb (a b : num) : bool :=
  match a, b with
  | Fin x, Fin y => Qc_ltb x y
  | NInf, (Fin _ | PInf) | Fin _, PInf => true
  | _, _ => false
  end.

Definition correlationDesc (c : num) : string :=
  if num_ltb (Fin (Q2Qc (7 # 10))) c
  then "Strong positive correlation - price and users move together"
  else if num_ltb (Fin (Q2Qc (4 # 10))) c then "Moderate positive correlation"
  else if num_ltb (Fin (Q2Qc (2 # 10))) c then "Weak positive correlation"
  else if num_ltb c (Fin (Q2Qc (-7 # 10)))
  then "Strong negative correlation - inverse relationship"
  else if num_ltb c (Fin (Q2Qc (-4 # 10))) then "Moderate negative correlation"
  else if num_ltb c (Fin (Q2Qc (-2 # 10))) then "Weak negative correlation"
  else "No significant correlation".

(** [ORDER BY total_users DESC LIMIT 1].  The query names no second sort
    key, and SQL leaves the choice among rows with the same [total_users]
    open; SQLite takes the one that its scan of the table meets first, the
    one with the lowest rowid, and so does [order_by]. *)
Definition peakRow (db : weekly_stats.table) : option weekly_stats.row :=
  head (order_by (λ a b, (weekly_stats.total_users b <=? weekly_stats.total_users a)%Z) db).

(** [ORDER BY year DESC, week DESC LIMIT 1 OFFSET 1] *)
Definition lastCompleteWeekRow (db : weekly_stats.table) : option weekly_stats.row :=
  order_by (λ a b, key_leb (weekly_stats.key b) (weekly_stats.key a)) db !! 1%nat.

(** [tierRow]: five [SUM]s over the whole table. *)
Record TierRow := {
  ultra : option Z;
  very : option Z;
  tr_active : option Z;
  tr_occasional : option Z;
  low : option Z;
}.

Definition tierRow (db : weekly_stats.table) : TierRow :=
  {| ultra := sql_sum weekly_stats.ultra_active_users db;
     very := sql_sum weekly_stats.very_active_users db;
     tr_active := sql_sum weekly_stats.active_users db;
     tr_occasional := sql_sum weekly_stats.occasional_users db;
     low := sql_sum weekly_stats.low_activity_users db |}.

(** A [number | null] read in an arithmetic expression: [null] counts as 0. *)
Definition to_number (v : option Z) : Z := default 0%Z v.

Definition totalTiers (t : TierRow) : Z :=
  (to_number (ultra t) + to_number (very t) + to_number (tr_active t)
   + to_number (tr_occasional t) + to_number (low t))%Z.

(** [Number(((tier / totalTiers) * 100).toFixed(1))], the division and the
    multiplication rounded. *)
Definition percentage (tier : option Z) (total : Z) : num :=
  toFixed 1
    (rounded fl
       (mul (rounded fl (div (Fin (of_Z (to_number tier))) (Fin (of_Z total))))
            (Fin (of_Z 100)))).

Definition getStats (db : weekly_stats.table) (ph : price_history.table)
  : result StatsResponse :=
  let weeklyStats := getWeeklyStats db ph in
  let yearOverYear := yearOverYear_of db ph in
  let correlation := correlation db ph in
  let tierRow := tierRow db in
  let totalTiers := totalTiers tierRow in
  bind (property_of (peakRow db)) (λ peak,
  bind (property_of (lastCompleteWeekRow db)) (λ last,
  Ok {| weeklyStats := weeklyStats;
        summary :=
          {| totalWeeks := Z.of_nat (length db);
             totalUserWeeks := sql_sum weekly_stats.total_users db;
             totalPosts := sql_sum weekly_stats.total_posts db;
             totalComments := sql_sum weekly_stats.total_comments db;
             avgWeeklyUsers :=
               Math_round
                 (default 0 (sql_avg ((λ r, of_Z (weekly_stats.total_users r)) <$> db)));
             peakWeeklyUsers := weekly_stats.total_users peak;
             peakWeekDate := weekly_stats.week_start peak;
             lastCompleteWeekUsers := weekly_stats.total_users last;
             lastCompleteWeekDate := weekly_stats.week_start last |};
        insights :=
          {| yearOverYear := yearOverYear;
             correlations :=
               {| priceUserCorrelation := toFixed 3 correlation;
                  description := correlationDesc correlation |};
             activityDistribution :=
               {| ultraActive := percentage (ultra tierRow) totalTiers;
                  veryActive := percentage (very tierRow) totalTiers;
                  active := percentage (tr_active tierRow) totalTiers;
                  occasional := percentage (tr_occasional tierRow) totalTiers;
                  lowActivity := percentage (low tierRow) totalTiers |} |} |})).

End WithArithmetic.

End Server.

(** ** The statements of the specification, for comparison with the code *)

Module Spec.

Import JS Server.
Local Open Scope Qc_scope.

(** A week whose price average exists and is positive. *)
Definition positive_price (w : WeeklyStatsRow) : Prop :=
  match avg_price w with
  | Some p => 0 < p
  | None => False
  end.

#[global] Instance positive_price_dec w : Decision (positive_price w).
Proof. unfold positive_price. destruct (avg_price w); apply _. Defined.

Section WithArithmetic.
Variable fl : Qc → Qc.
Variable AVG : list Qc → Qc.
Variable Math_sqrt : Qc → Qc.

(** The weeks whose price average exists, in the order of
    [getWeeklyStats]. *)
Definition weeks_with_price (db : weekly_stats.table) (ph : price_history.table)
  : list WeeklyStatsRow :=
  filter (λ w, is_Some (avg_price w)) (getWeeklyStats AVG db ph).

(** The price vector and the users vector over those weeks. *)
Definition price_vector (db : weekly_stats.table) (ph : price_history.table) : list Qc :=
  omap avg_price (weeks_with_price db ph).

Definition users_vector (db : weekly_stats.table) (ph : price_history.table) : list Qc :=
  (λ w, of_Z (total_users w)) <$> weeks_with_price db ph.

(** The weeks whose price average exists and is positive. *)
Definition weeks_with_positive_price
    (db : weekly_stats.table) (ph : price_history.table) : list WeeklyStatsRow :=
  filter positive_price (getWeeklyStats AVG db ph).

Definition positive_price_vector
    (db : weekly_stats.table) (ph : price_history.table) : list Qc :=
  omap avg_price (weeks_with_positive_price db ph).

Definition positive_users_vector
    (db : weekly_stats.table) (ph : price_history.table) : list Qc :=
  (λ w, of_Z (total_users w)) <$> weeks_with_positive_price db ph.

(** Σ: the terms added up from the first to the last, each sum rounded. *)
Definition sigma (l : list Qc) : Qc := foldl (λ a b, fl (a + b)) 0 l.

(** The products x_i y_i, each rounded. *)
Definition products (x y : list Qc) : list Qc := zip_with (λ a b, fl (a * b)) x y.

(** The two factors under the root, n Σx² − (Σx)², and the numerator,
    n Σxy − Σx Σy. *)
Definition spread (x : list Qc) : Qc :=
  fl (fl (of_nat (length x) * sigma (products x x)) - fl (sigma x * sigma x)).

Definition covariance (x y : list Qc) : Qc :=
  fl (fl (of_nat (length x) * sigma (products x y)) - fl (sigma x * sigma y)).

(** Pearson's coefficient as the specification writes it:
    r = (n Σxy − Σx Σy) / sqrt((n Σx² − (Σx)²)(n Σy² − (Σy)²)), and 0 when
    the denominator is 0; every operation is an operation of the run time.
    With [JS.exact] for [fl] it is the formula over the rationals. *)
Definition pearson_r (x y : list Qc) : num :=
  let denominator := js_sqrt Math_sqrt (fl (spread x * spread y)) in
  if bool_decide (denominator = Fin 0) then Fin 0
  else rounded fl (div (Fin (covariance x y)) denominator).

(** A vector without variance: all its entries are the same. *)
Definition constant (x : list Qc) : Prop := ∃ c, Forall (eq c) x.

(** "The correlation is Pearson's r over exactly the weeks whose price
    average exists, and it is 0 whenever a vector has no variance." *)
Definition correlation_as_specified
    (db : weekly_stats.table) (ph : price_history.table) : Prop :=
  correlation fl AVG Math_sqrt db ph
  = (if decide (price_vector db ph = []) then Fin 0
     else pearson_r (price_vector db ph) (users_vector db ph))
  ∧ (constant (price_vector db ph) ∨ constant (users_vector db ph) →
     correlation fl AVG Math_sqrt db ph = Fin 0).

(** The yearly price of the specification: the mean, over the weeks of the
    year, of the weekly price averages of [getWeeklyStats] (which take the
    coin of the cutover policy). *)
Definition mean_of_weekly_means (db : weekly_stats.table) (ph : price_history.table)
    (y : Z) : option Qc :=
  sql_avg AVG
    (omap avg_price
       (filter (λ w, weekly_stats.year (ws w) = y) (getWeeklyStats AVG db ph))).

Definition avgPrice_is_mean_of_weekly_means
    (db : weekly_stats.table) (ph : price_history.table) : Prop :=
  ∀ y, y ∈ yearOverYear_of fl AVG db ph →
       YearOverYear.avgPrice y = mean_of_weekly_means db ph (YearOverYear.year y).

(** "[changePercent] is absent exactly for the first year and for a year
    whose prior year has average zero." *)
Definition changePercent_absent_iff
    (db : weekly_stats.table) (ph : price_history.table) : Prop :=
  ∀ i row y,
    yearRows AVG db !! i = Some row →
    yearOverYear_of fl AVG db ph !! i = Some y →
    (YearOverYear.changePercent y = None
     ↔ i = 0%nat
       ∨ ∃ prev, yearRows AVG db !! (i - 1)%nat = Some prev
                 ∧ avg_weekly_users prev = 0).

(** "When the grand total of the tier sums is 0, every tier percentage
    is 0." *)
Definition distribution_zero_without_data
    (db : weekly_stats.table) (ph : price_history.table) : Prop :=
  totalTiers (tierRow db) = 0%Z →
  ∃ resp, getStats fl AVG Math_sqrt db ph = Ok resp
          ∧ activityDistribution (insights resp)
            = {| ultraActive := Fin 0; veryActive := Fin 0; active := Fin 0;
                 occasional := Fin 0; lowActivity := Fin 0 |}.

(** "The peak is the row with the most users, the earliest week among
    several." *)
Definition peak_is_earliest_maximum
    (db : weekly_stats.table) (ph : price_history.table) : Prop :=
  ∀ resp, getStats fl AVG Math_sqrt db ph = Ok resp →
  ∃ r, r ∈ db
       ∧ peakWeeklyUsers (summary resp) = weekly_stats.total_users r
       ∧ peakWeekDate (summary resp) = weekly_stats.week_start r
       ∧ (∀ r', r' ∈ db →
            (weekly_stats.total_users r' <= weekly_stats.total_users r)%Z)
       ∧ (∀ r', r' ∈ db →
            weekly_stats.total_users r' = weekly_stats.total_users r →
            key_leb (weekly_stats.key r) (weekly_stats.key r')).

End WithArithmetic.

(** "With fewer than two rows the request for the last complete week
    fails with a condition of its own, [InsufficientData]."  A condition
    is what a caller can tell from the exception it catches. *)
Inductive condition := InsufficientData | Unnamed.

Definition condition_of (e : exn) : condition :=
  match e with
  | TypeError => Unnamed
  end.

Definition fails_with_InsufficientData (fl : Qc → Qc) (AVG : list Qc → Qc)
    (Math_sqrt : Qc → Qc) (db : weekly_stats.table) (ph : price_history.table) : Prop :=
  (length db < 2)%nat →
  ∃ e, getStats fl AVG Math_sqrt db ph = Throw e
       ∧ condition_of e = InsufficientData.

End Spec.

(** ** Sample data *)

Module Samples.

Import JS.

(** A square root that is exact on the squares of rationals. *)
Definition sqrt_on_squares (q : Qc) : Qc :=
  Q2Qc (Z.sqrt (Qnum q) # Pos.sqrt (Qden q)).

(** [DATEPART(WEEK, d)] under SQL Server's default [DATEFIRST 7]: week 1
    starts on 1 January, a new week on every Sunday. *)
Definition datepart_week_us (d : Date.t) : Z :=
  let jan1 := Date.to_days (Date.first_of_year (Date.year d)) in
  (Date.to_days d - jan1 + (jan1 + 4) mod 7) / 7 + 1.

Definition comment (a : string) (y m d : Z) (parent : string) : Fetch.Comment :=
  {| Fetch.author := a; Fetch.created := Date.mk y m d; Fetch.parent_author := parent |}.

(** One account with 55 posts in a week, a second one with two posts and a
    comment, and actions outside the week and the year. *)
Definition comments_2021 : list Fetch.Comment :=
  replicate 55 (comment "alice" 2021 1 5 "")
  ++ [comment "bob" 2021 1 4 ""; comment "bob" 2021 1 6 "";
      comment "bob" 2021 1 7 "alice"; comment "bob" 2021 1 12 "alice";
      comment "carol" 2022 1 1 ""; comment "dave" 2020 12 31 ""].

(** A stored week with [u] users, all of them in the lowest tier. *)
Definition week_row (y w : Z) (start : Date.t) (u : Z) : weekly_stats.row :=
  weekly_stats.mk y w start u u 0 0 0 0 0 u "2026-01-01 00:00:00".

(** A stored week in which nothing is counted. *)
Definition empty_week (y w : Z) (start : Date.t) : weekly_stats.row :=
  weekly_stats.mk y w start 0 0 0 0 0 0 0 0 "2026-01-01 00:00:00".

Definition price (d : Date.t) (coin : string) (p : Q) : price_history.row :=
  price_history.mk d coin (Q2Qc p) "2026-01-01 00:00:00".

(** Two weeks of 2021 with three daily prices. *)
Definition two_weeks : weekly_stats.table :=
  [week_row 2021 1 (Date.mk 2021 1 1) 10; week_row 2021 2 (Date.mk 2021 1 8) 20].

Definition three_prices : price_history.table :=
  [price (Date.mk 2021 1 1) "hive" 1; price (Date.mk 2021 1 2) "hive" 3;
   price (Date.mk 2021 1 8) "hive" 5].

(** Three years: no users, then five, then five again. *)
Definition three_years : weekly_stats.table :=
  [empty_week 2019 1 (Date.mk 2019 1 1);
   week_row 2020 1 (Date.mk 2020 1 1) 5;
   week_row 2021 1 (Date.mk 2021 1 1) 5].

(** Three weeks with 100, 150 and 120 users. *)
Definition three_weeks : weekly_stats.table :=
  [week_row 2021 1 (Date.mk 2021 1 1) 100;
   week_row 2021 2 (Date.mk 2021 1 8) 150;
   week_row 2021 3 (Date.mk 2021 1 15) 120].

(** Two stored weeks in which nothing is counted. *)
Definition two_empty_weeks : weekly_stats.table :=
  [empty_week 2021 1 (Date.mk 2021 1 1); empty_week 2021 2 (Date.mk 2021 1 8)].

Definition stats_week (y w : Z) (start : Date.t) (u : Z) : Fetch.WeeklyStats :=
  {| Fetch.year := y; Fetch.week := w; Fetch.week_start := start;
     Fetch.total_users := u; Fetch.total_posts := u; Fetch.total_comments := 0;
     Fetch.ultra_active_users := 0; Fetch.very_active_users := 0;
     Fetch.active_users := 0; Fetch.occasional_users := 0;
     Fetch.low_activity_users := u |}.

Definition at_noon (i : nat) : string := "2026-01-01 12:00:00".

(** A [REAL] value as it is stored: the double nearest to [p]. *)
Definition real (p : Q) : Qc := Binary64.round (Q2Qc p).

(** A year of 80 users a week, then a year of 103. *)
Definition years_80_103 : weekly_stats.table :=
  [week_row 2020 1 (Date.mk 2020 1 1) 80; week_row 2021 1 (Date.mk 2021 1 1) 103].

(** Two weeks with 46 of 160 accounts in the highest tier. *)
Definition tiers_46_of_160 : weekly_stats.table :=
  [weekly_stats.mk 2021 1 (Date.mk 2021 1 1) 100 100 0 46 0 0 0 54 "2026-01-01 00:00:00";
   weekly_stats.mk 2021 2 (Date.mk 2021 1 8) 60 60 0 0 0 0 0 60 "2026-01-01 00:00:00"].

(** Five daily prices of 2021 that add up to 3/32. *)
Definition five_prices : price_history.table :=
  [price (Date.mk 2021 1 1) "hive" (1 # 32); price (Date.mk 2021 1 2) "hive" (1 # 32);
   price (Date.mk 2021 1 3) "hive" (1 # 64); price (Date.mk 2021 1 4) "hive" (1 # 128);
   price (Date.mk 2021 1 5) "hive" (1 # 128)].

(** Six weeks with 1 to 6 users, and the same price of 0.3 in each. *)
Definition six_weeks : weekly_stats.table :=
  [week_row 2021 1 (Date.mk 2021 1 1) 1; week_row 2021 2 (Date.mk 2021 1 8) 2;
   week_row 2021 3 (Date.mk 2021 1 15) 3; week_row 2021 4 (Date.mk 2021 1 22) 4;
   week_row 2021 5 (Date.mk 2021 1 29) 5; week_row 2021 6 (Date.mk 2021 2 5) 6].

Definition flat_prices : price_history.table :=
  (λ d, price_history.mk d "hive" (real (3 # 10)) "2026-01-01 00:00:00")
    <$> [Date.mk 2021 1 1; Date.mk 2021 1 8; Date.mk 2021 1 15; Date.mk 2021 1 22;
         Date.mk 2021 1 29; Date.mk 2021 2 5].

(** A price in the first week and a price of zero in the second. *)
Definition one_price_and_zero : price_history.table :=
  [price (Date.mk 2021 1 1) "hive" 1; price (Date.mk 2021 1 8) "hive" 0].

(** Two years with the same peak, saved in order, after which the earlier
    year is saved once more. *)
Definition reprocessed : weekly_stats.table :=
  Fetch.saveToDatabase at_noon
    (Fetch.saveToDatabase at_noon []
       [stats_week 2020 1 (Date.mk 2020 1 1) 100;
        stats_week 2021 1 (Date.mk 2021 1 1) 100])
    [stats_week 2020 1 (Date.mk 2020 1 1) 100].

End Samples.

(** ** The drivers: the two [main] functions and the HTTP route *)

Module FetchMain.

Import Fetch.

(** A date as SQL Server holds it: months and days count from 1. *)
Definition calendar_date (d : Date.t) : Prop :=
  1 <= Date.month d ∧ 1 <= Date.day d.

#[global] Instance calendar_date_dec d : Decision (calendar_date d).
Proof. unfold calendar_date. apply _. Defined.

(** The rows of a table whose key is [k]. *)
Definition rows_with_key (k : Z * Z) (db : weekly_stats.table) : weekly_stats.table :=
  filter (λ r, weekly_stats.key r = k) db.

(** Strictly ascending order of (year, week). *)
Definition key_lt (a b : Z * Z) : Prop := key_leb a b ∧ a ≠ b.

Section Main.

Variable datepart_week : Date.t → Z.

Definition startYear : Z := 2016.

(** The loop [for (let year = startYear; year <= endYear; year++)] of
    [main], [n] years from [year] on: the year is fetched and, when the
    query returned rows, saved.  [clock y] is the clock of the batch of
    year [y]; [Comments] is the content of HiveSQL during the run. *)
Fixpoint main_loop (clock : Z → nat → string) (Comments : list Comment)
    (db : weekly_stats.table) (year : Z) (n : nat) : weekly_stats.table :=
  match n with
  | O => db
  | S n' =>
      let stats := fetchWeeklyStats datepart_week Comments year in
      let db' :=
        if (0 <? length stats)%nat then saveToDatabase (clock year) db stats
        else db in
      main_loop clock Comments db' (year + 1) n'
  end.

(** [main], up to the current year [endYear]. *)
Definition main (clock : Z → nat → string) (Comments : list Comment)
    (db : weekly_stats.table) (endYear : Z) : weekly_stats.table :=
  main_loop clock Comments db startYear (Z.to_nat (endYear - startYear + 1)).

(** The rows of [n] years from [year] on, year after year. *)
Fixpoint rows_of_years (Comments : list Comment) (year : Z) (n : nat)
  : list WeeklyStats :=
  match n with
  | O => []
  | S n' =>
      fetchWeeklyStats datepart_week Comments year
      ++ rows_of_years Comments (year + 1) n'
  end.

End Main.

End FetchMain.

Module PriceMain.

Import FetchPrice.

(** The body of CryptoCompare's answer ([Data.Data] is the list of
    candles) and the HTTP response that carries it. *)
Record CryptoCompareResponse := {
  Response : string;
  Data : list Candle;
}.

Record HttpResponse := {
  ok : bool;
  status : Z;
  json : CryptoCompareResponse;
}.

(** The two errors that [fetchDailyHistory] throws. *)
Inductive error :=
| ApiError (status : Z)
| ResponseError (data : CryptoCompareResponse).

Inductive outcome (A : Type) :=
| Returned (a : A)
| Thrown (e : error).
Arguments Returned {A} a.
Arguments Thrown {A} e.

(** [fetchDailyHistory], on the response to its request. *)
Definition fetchDailyHistory_of (res : HttpResponse) : outcome (list (Date.t * Qc)) :=
  if negb (ok res) then Thrown (ApiError (status res))
  else if negb (bool_decide (Response (json res) = "Success"%string))
  then Thrown (ResponseError (json res))
  else Returned (fetchDailyHistory (Data (json res))).

(** One [try] block of [main]: the prices are saved when the fetch returned
    some; an error is caught and logged. *)
Definition fetch_and_save (clock : nat → string) (db : price_history.table)
    (coin : string) (res : HttpResponse) : price_history.table :=
  match fetchDailyHistory_of res with
  | Returned prices =>
      if (0 <? length prices)%nat then savePrices clock db coin prices else db
  | Thrown _ => db
  end.

(** [main]: STEEM first, then HIVE. *)
Definition main (clock_steem clock_hive : nat → string) (db : price_history.table)
    (steem hive : HttpResponse) : price_history.table :=
  fetch_and_save clock_hive
    (fetch_and_save clock_steem db "steem" steem) "hive" hive.

(** The primary key of [price_history]. *)
Definition date_unique (db : price_history.table) : Prop :=
  NoDup (price_history.date <$> db).

(** The price columns of a stored row: everything but [fetched_at]. *)
Definition columns (r : price_history.row) : Date.t * string * Qc :=
  (price_history.date r, price_history.coin r, price_history.price_usd r).

(** The prices of a batch that are still in the table when the batch is
    done. *)
Fixpoint last_prices (prices : list (Date.t * Qc)) : list (Date.t * Qc) :=
  match prices with
  | [] => []
  | p :: rest =>
      (if decide (p.1 ∈ fst <$> rest) then [] else [p]) ++ last_prices rest
  end.

(** The row that a batch for [coin] writes for a price. *)
Definition written (coin : string) (p : Date.t * Qc) : Date.t * string * Qc :=
  (p.1, coin, p.2).

(** The rows of a table under a date. *)
Definition rows_of_date (d : Date.t) (db : price_history.table) : price_history.table :=
  filter (λ r, price_history.date r = d) db.

(** The prices that a response yields: none when [fetchDailyHistory]
    throws. *)
Definition fetched_prices (res : HttpResponse) : list (Date.t * Qc) :=
  match fetchDailyHistory_of res with
  | Returned prices => prices
  | Thrown _ => []
  end.

(** A response that carries the candles [data]. *)
Definition success (data : list Candle) : HttpResponse :=
  {| ok := true; status := 200;
     json := {| Response := "Success"; Data := data |} |}.

(** A response with an HTTP error status. *)
Definition failure (code : Z) : HttpResponse :=
  {| ok := false; status := code;
     json := {| Response := "Error"; Data := [] |} |}.

End PriceMain.

Module PriceSamples.

Import FetchPrice PriceMain.

Definition candle (t : Z) (c : Q) : Candle := {| time := t; close := Q2Qc c |}.

(** 1 to 3 January 2021 at midnight UTC; no trading on the second day. *)
Definition steem_candles : list Candle :=
  [candle 1609459200 (1 # 4); candle 1609545600 0; candle 1609632000 (1 # 2)].

(** 3 and 4 January 2021, the first of the two days at noon. *)
Definition hive_candles : list Candle :=
  [candle 1609675200 (3 # 4); candle 1609718400 1].

Definition at_midnight (i : nat) : string := "2026-01-01 00:00:00".

End PriceSamples.

Module Policy.

(** The coin of a year: STEEM before 2020, HIVE from 2020 on. *)
Definition coin_of_year (y : Z) : string :=
  if y <? 2020 then "steem" else "hive".

(** The seven days from [start] on. *)
Definition in_week (start d : Date.t) : Prop :=
  Date.leb start d ∧ Date.ltb d (Date.add_days start 7).

(** The price rows that count for a stored week. *)
Definition prices_of_week (w : weekly_stats.row) (ph : price_history.table)
  : list price_history.row :=
  filter (λ p, in_week (weekly_stats.week_start w) (price_history.date p)
               ∧ price_history.coin p = coin_of_year (weekly_stats.year w)) ph.

End Policy.

Module Accuracy.


End Accuracy.

Module ServerSamples.

(** Two weeks with one account in each of three tiers. *)
Definition thirds : weekly_stats.table :=
  [weekly_stats.mk 2021 1 (Date.mk 2021 1 1) 3 3 0 1 1 1 0 0 "2026-01-01 00:00:00";
   weekly_stats.mk 2021 2 (Date.mk 2021 1 8) 3 3 0 1 1 1 0 0 "2026-01-01 00:00:00"].

(** The price 0.1 on the first three days of 2021. *)
Definition three_tenths : price_history.table :=
  (λ d, price_history.mk d "hive" (Samples.real (1 # 10)) "2026-01-01 00:00:00")
    <$> [Date.mk 2021 1 1; Date.mk 2021 1 2; Date.mk 2021 1 3].

End ServerSamples.

Module Api.

Import JS Server.

(** [JSON.stringify] writes a finite number as itself, and [NaN] and the
    infinities as [null]. *)
Definition json_number (x : num) : option Qc :=
  match x with
  | Fin q => Some q
  | _ => None
  end.

(** The JSON of the entries of [insights]. *)
Record YearJson := {
  year : Z;
  avgWeeklyUsers : Z;
  avgPrice : option Qc;
  totalPosts : Z;
  totalComments : Z;
  changePercent : option Qc;
}.

Record InsightsJson := {
  yearOverYear : list YearJson;
  priceUserCorrelation : option Qc;
  description : string;
  ultraActive : option Qc;
  veryActive : option Qc;
  active : option Qc;
  occasional : option Qc;
  lowActivity : option Qc;
}.

Record StatsJson := {
  weeklyStats : list WeeklyStatsRow;
  summary : Summary;
  insights : InsightsJson;
}.

Definition year_json (y : YearOverYear.t) : YearJson :=
  {| year := YearOverYear.year y;
     avgWeeklyUsers := YearOverYear.avgWeeklyUsers y;
     avgPrice := YearOverYear.avgPrice y;
     totalPosts := YearOverYear.totalPosts y;
     totalComments := YearOverYear.totalComments y;
     changePercent := YearOverYear.changePercent y ≫= json_number |}.

(** [Response.json(stats)] *)
Definition Response_json (stats : StatsResponse) : StatsJson :=
  let i := Server.insights stats in
  {| weeklyStats := Server.weeklyStats stats;
     summary := Server.summary stats;
     insights :=
       {| yearOverYear := year_json <$> Server.yearOverYear i;
          priceUserCorrelation :=
            json_number (Server.priceUserCorrelation (correlations i));
          description := Server.description (correlations i);
          ultraActive := json_number (Server.ultraActive (activityDistribution i));
          veryActive := json_number (Server.veryActive (activityDistribution i));
          active := json_number (Server.active (activityDistribution i));
          occasional := json_number (Server.occasional (activityDistribution i));
          lowActivity := json_number (Server.lowActivity (activityDistribution i)) |} |}.

(** The route ["/api/stats"]: the JSON of [getStats]; an exception of
    [getStats] is not caught. *)
Definition api_stats (fl : Qc → Qc) (AVG : list Qc → Qc) (Math_sqrt : Qc → Qc)
    (db : weekly_stats.table) (ph : price_history.table) : result StatsJson :=
  bind (getStats fl AVG Math_sqrt db ph) (λ stats, Ok (Response_json stats)).

End Api.

(** * Properties *)

(** An equation between computed values, rationals included, is decided by
    evaluation. *)
Ltac by_evaluation :=
  apply (bool_decide_eq_true_1 _); vm_compute; reflexivity.

(** ** Grouping and ordering *)

Section RelationalFacts.
Context {A : Type}.
Implicit Types l : list A.

Lemma elem_of_group_by {K} `{EqDecision K} (key : A → K) l k g :
  (k, g) ∈ group_by key l ↔ k ∈ key <$> l ∧ g = filter (λ a, key a = k) l.
Proof.
  unfold group_by. rewrite list_elem_of_fmap.
  setoid_rewrite elem_of_remove_dups. split.
  - intros (k' & [= -> ->] & Hk). done.
  - intros [Hk ->]. by exists k.
Qed.

Lemma group_by_NoDup {K} `{EqDecision K} (key : A → K) l :
  NoDup (group_by key l).*1.
Proof.
  unfold group_by. rewrite <-list_fmap_compose.
  rewrite (list_fmap_ext _ id); [|done].
  rewrite list_fmap_id. apply NoDup_remove_dups.
Qed.

Lemma group_by_fst {K} `{EqDecision K} (key : A → K) l :
  (group_by key l).*1 = remove_dups (key <$> l).
Proof.
  unfold group_by. rewrite <-list_fmap_compose.
  rewrite (list_fmap_ext _ id); [|done]. apply list_fmap_id.
Qed.

(** The keys of the rows computed from the groups are the distinct keys of
    the input. *)
Lemma group_by_keys {K B} `{EqDecision K} (key : A → K)
    (f : K * list A → B) (proj : B → K) l :
  (∀ k g, proj (f (k, g)) = k) →
  proj <$> (f <$> group_by key l) = remove_dups (key <$> l).
Proof.
  intros Hf. rewrite <-list_fmap_compose, <-group_by_fst.
  apply list_fmap_ext. intros _ [k g] _. apply Hf.
Qed.

(** A group holds the rows of its key, and at least one. *)
Lemma group_by_member {K} `{EqDecision K} (key : A → K) l k g :
  (k, g) ∈ group_by key l →
  g ≠ [] ∧ Forall (λ a, key a = k ∧ a ∈ l) g.
Proof.
  rewrite elem_of_group_by, list_elem_of_fmap.
  intros [(a & -> & Ha) ->]. split.
  - intros Hnil. eapply (filter_nil_not_elem_of _ _ a); [exact Hnil| |exact Ha].
    reflexivity.
  - apply Forall_forall. intros b. rewrite list_elem_of_filter. tauto.
Qed.

Lemma insert_sorted_perm (le : A → A → bool) x l :
  insert_sorted le x l ≡ₚ x :: l.
Proof.
  induction l as [|y l IH]; simpl; [done|].
  destruct (le x y); [done|]. rewrite IH. apply Permutation_swap.
Qed.

Lemma order_by_perm (le : A → A → bool) l : order_by le l ≡ₚ l.
Proof.
  induction l as [|x l IH]; simpl; [done|].
  rewrite insert_sorted_perm. by rewrite IH.
Qed.

Lemma order_by_Forall (le : A → A → bool) (P : A → Prop) l :
  Forall P (order_by le l) ↔ Forall P l.
Proof. by rewrite order_by_perm. Qed.

Lemma elem_of_order_by (le : A → A → bool) l x : x ∈ order_by le l ↔ x ∈ l.
Proof. by rewrite order_by_perm. Qed.

Lemma order_by_length (le : A → A → bool) l : length (order_by le l) = length l.
Proof. by rewrite order_by_perm. Qed.

Lemma sum_of_app (f : A → Z) l1 l2 :
  sum_of f (l1 ++ l2) = sum_of f l1 + sum_of f l2.
Proof. induction l1 as [|a l1 IH]; simpl; lia. Qed.

Lemma sum_of_ge (f : A → Z) (c : Z) l :
  Forall (λ a, c <= f a) l → c * Z.of_nat (length l) <= sum_of f l.
Proof. induction 1; simpl; lia. Qed.

Lemma sum_of_plus (f g : A → Z) l :
  sum_of (λ a, f a + g a) l = sum_of f l + sum_of g l.
Proof. induction l as [|a l IH]; simpl; lia. Qed.

Lemma remove_dups_id `{EqDecision A} l : NoDup l → remove_dups l = l.
Proof.
  induction 1 as [|x l Hx _ IH]; simpl; [done|].
  destruct (decide_rel _ x l); [done|]. by rewrite IH.
Qed.

Lemma NoDup_fmap_inj_on {B} (f : A → B) l x y :
  NoDup (f <$> l) → x ∈ l → y ∈ l → f x = f y → x = y.
Proof.
  induction l as [|a l IH]; [by intros _ ?%elem_of_nil|].
  rewrite fmap_cons, NoDup_cons, !elem_of_cons.
  intros [Ha Hnd] [->|Hx] [->|Hy] Hxy; [done| | |by apply IH].
  - destruct Ha. rewrite Hxy. by apply list_elem_of_fmap_2.
  - destruct Ha. rewrite <-Hxy. by apply list_elem_of_fmap_2.
Qed.

Lemma filter_all (P : A → Prop) `{!∀ x, Decision (P x)} l :
  Forall P l → filter P l = l.
Proof.
  induction 1 as [|x l Hx _ IH]; [done|]. by rewrite filter_cons_True, IH.
Qed.

Lemma filter_none (P : A → Prop) `{!∀ x, Decision (P x)} l :
  Forall (λ x, ¬ P x) l → filter P l = [].
Proof.
  induction 1 as [|x l Hx _ IH]; [done|]. by rewrite filter_cons_False.
Qed.

(** [ORDER BY] sorts, for a total and transitive order. *)
Lemma insert_sorted_sorted (le : A → A → bool) x l :
  (∀ a b, ¬ le a b → le b a) →
  (∀ a b c, le a b → le b c → le a c) →
  StronglySorted le l → StronglySorted le (insert_sorted le x l).
Proof.
  intros Htotal Htrans. induction 1 as [|y l Hl IH Hy]; simpl.
  - repeat constructor.
  - destruct (le x y) eqn:Hxy.
    + constructor; [by constructor|]. constructor; [by rewrite Hxy|].
      eapply Forall_impl; [exact Hy|]. intros z Hz.
      eapply Htrans; [|exact Hz]. by rewrite Hxy.
    + constructor; [done|].
      rewrite insert_sorted_perm. constructor; [|done].
      apply Htotal. rewrite Hxy. by intros [].
Qed.

Lemma order_by_sorted (le : A → A → bool) l :
  (∀ a b, ¬ le a b → le b a) →
  (∀ a b c, le a b → le b c → le a c) →
  StronglySorted le (order_by le l).
Proof.
  intros Htotal Htrans. induction l as [|x l IH]; simpl; [constructor|].
  by apply insert_sorted_sorted.
Qed.

(** The first row of [ORDER BY f DESC] is the first row of the scan among
    those with the highest [f]. *)
Lemma order_by_desc_head (f : A → Z) l x rest :
  order_by (λ a b, f b <=? f a) l = x :: rest →
  ∃ i, l !! i = Some x
       ∧ (∀ y, y ∈ l → f y <= f x)
       ∧ (∀ j y, l !! j = Some y → f y = f x → (i ≤ j)%nat).
Proof.
  revert x rest. induction l as [|a l IH]; intros x rest; [done|].
  simpl. destruct (order_by (λ a b, f b <=? f a) l) as [|y s] eqn:Hs.
  - assert (l = []) as ->.
    { apply (f_equal length) in Hs. rewrite order_by_length in Hs.
      by destruct l. }
    simpl. intros [= <- <-]. exists 0%nat. split; [done|]. split.
    + intros y ->%list_elem_of_singleton. lia.
    + intros j y _ _. lia.
  - destruct (IH y s eq_refl) as (i & Hi & Hmax & Hfirst).
    simpl. destruct (Z.leb_spec (f y) (f a)) as [Hle|Hlt].
    + intros [= <- <-]. exists 0%nat. split; [done|]. split.
      * intros z [->|Hz]%elem_of_cons; [lia|]. specialize (Hmax z Hz). lia.
      * intros j z _ _. lia.
    + intros [= <- <-]. exists (S i). split; [done|]. split.
      * intros z [->|Hz]%elem_of_cons; [lia|]. by apply Hmax.
      * intros [|j] z; simpl.
        -- intros [= ->] Heq. lia.
        -- intros Hz Heq. specialize (Hfirst j z Hz Heq). lia.
Qed.

Lemma StronglySorted_lookup (R : A → A → Prop) l i j x y :
  StronglySorted R l → (i < j)%nat → l !! i = Some x → l !! j = Some y → R x y.
Proof.
  intros Hl. revert i j. induction Hl as [|a l Hl IH Ha]; intros i j Hij; [done|].
  destruct i as [|i], j as [|j]; simpl; try lia.
  - intros [= <-] Hy. eapply Forall_forall; [exact Ha|].
    by eapply list_elem_of_lookup_2.
  - apply IH. lia.
Qed.

End RelationalFacts.

(** ** The yearly aggregation *)

Module FetchFacts.
Import Fetch.

Section Query.
Variable datepart_week : Date.t → Z.

Lemma activity_row_counts Comments yr r :
  r ∈ UserWeeklyActivity_cte datepart_week Comments yr →
  0 <= UserWeeklyActivity.post_count r
  ∧ 0 <= UserWeeklyActivity.comment_count r
  ∧ 1 <= UserWeeklyActivity.post_count r + UserWeeklyActivity.comment_count r.
Proof.
  unfold UserWeeklyActivity_cte, post_rows, comment_rows.
  rewrite elem_of_app, !list_elem_of_fmap.
  intros [([k g] & -> & Hg)|([k g] & -> & Hg)];
    apply group_by_member in Hg as [Hne _]; simpl;
    destruct g; [done| |done|]; simpl length; lia.
Qed.

Lemma activity_keys Comments yr k :
  k ∈ UserWeeklyActivity.key <$> UserWeeklyActivity_cte datepart_week Comments yr
  ↔ counted datepart_week Comments yr k.
Proof.
  unfold UserWeeklyActivity_cte, post_rows, comment_rows, counted.
  rewrite fmap_app, elem_of_app.
  rewrite !group_by_keys by (by intros [[??]?] ?).
  rewrite !elem_of_remove_dups, !list_elem_of_fmap.
  setoid_rewrite list_elem_of_filter. split.
  - intros [(c & -> & Hc & Hin)|(c & -> & Hc & Hin)]; exists c;
      apply andb_True in Hc as [_ Hc]; done.
  - intros (c & Hin & Hy & <-). destruct (is_post c) eqn:Hp; [left|right];
      exists c; rewrite Hp; simpl; done.
Qed.

Lemma totals_ids Comments yr :
  totals_id <$> UserWeeklyTotals_cte datepart_week Comments yr
  = remove_dups (UserWeeklyActivity.key <$> UserWeeklyActivity_cte datepart_week Comments yr).
Proof.
  unfold UserWeeklyTotals_cte. apply group_by_keys. by intros [[??]?] ?.
Qed.

Lemma totals_NoDup Comments yr :
  NoDup (totals_id <$> UserWeeklyTotals_cte datepart_week Comments yr).
Proof. rewrite totals_ids. apply NoDup_remove_dups. Qed.

Lemma totals_counted Comments yr k :
  k ∈ totals_id <$> UserWeeklyTotals_cte datepart_week Comments yr
  ↔ counted datepart_week Comments yr k.
Proof. by rewrite totals_ids, elem_of_remove_dups, activity_keys. Qed.

(** Every account-week of [UserWeeklyTotals] has at least one action. *)
Lemma totals_row Comments yr u :
  u ∈ UserWeeklyTotals_cte datepart_week Comments yr →
  0 <= UserWeeklyTotals.posts u
  ∧ 0 <= UserWeeklyTotals.comments u
  ∧ UserWeeklyTotals.total_activity u
    = UserWeeklyTotals.posts u + UserWeeklyTotals.comments u
  ∧ 1 <= UserWeeklyTotals.total_activity u.
Proof.
  unfold UserWeeklyTotals_cte. rewrite list_elem_of_fmap.
  intros ([k g] & -> & Hg). apply group_by_member in Hg as [Hne Hg]. simpl.
  assert (Hrows : Forall (λ r,
            0 <= UserWeeklyActivity.post_count r
            ∧ 0 <= UserWeeklyActivity.comment_count r
            ∧ 1 <= UserWeeklyActivity.post_count r
                   + UserWeeklyActivity.comment_count r) g).
  { eapply Forall_impl; [exact Hg|]. intros r [_ Hr].
    by apply activity_row_counts in Hr. }
  assert (Hp : 0 * Z.of_nat (length g) <= sum_of UserWeeklyActivity.post_count g).
  { apply sum_of_ge. eapply Forall_impl; [exact Hrows|]. by intros r (? & _). }
  assert (Hc : 0 * Z.of_nat (length g) <= sum_of UserWeeklyActivity.comment_count g).
  { apply sum_of_ge. eapply Forall_impl; [exact Hrows|]. by intros r (_ & ? & _). }
  assert (Ht : 1 * Z.of_nat (length g)
               <= sum_of UserWeeklyActivity.post_count g
                  + sum_of UserWeeklyActivity.comment_count g).
  { rewrite <-sum_of_plus. apply sum_of_ge.
    eapply Forall_impl; [exact Hrows|]. by intros r (_ & _ & ?). }
  destruct g; [done|]. simpl length in *. lia.
Qed.

(** The five brackets split the positive totals. *)
Lemma tiers_partition (g : list UserWeeklyTotals.row) :
  Forall (λ u, 1 <= UserWeeklyTotals.total_activity u) g →
  count_when (λ u, tier_ultra (UserWeeklyTotals.total_activity u)) g
  + count_when (λ u, tier_very (UserWeeklyTotals.total_activity u)) g
  + count_when (λ u, tier_active (UserWeeklyTotals.total_activity u)) g
  + count_when (λ u, tier_occasional (UserWeeklyTotals.total_activity u)) g
  + count_when (λ u, tier_low (UserWeeklyTotals.total_activity u)) g
  = Z.of_nat (length g).
Proof.
  unfold count_when.
  induction 1 as [|u g Hu _ IH]; [done|].
  cbn [sum_of foldr length]. fold (@sum_of UserWeeklyTotals.row) in *.
  unfold sum_of in *.
  rewrite Nat2Z.inj_succ, <-IH.
  unfold tier_ultra, tier_very, tier_active, tier_occasional, tier_low.
  repeat match goal with
  | |- context [(?a <=? ?b)] => destruct (Z.leb_spec a b)
  | |- context [(?a <? ?b)] => destruct (Z.ltb_spec a b)
  end; simpl; lia.
Qed.

(** What a group of [WeeklyAggregates] looks like. *)
Lemma week_group Comments yr k g :
  (k, g) ∈ group_by UserWeeklyTotals.key (UserWeeklyTotals_cte datepart_week Comments yr) →
  g ≠ []
  ∧ NoDup (UserWeeklyTotals.author <$> g)
  ∧ Forall (λ u, u ∈ UserWeeklyTotals_cte datepart_week Comments yr
                 ∧ UserWeeklyTotals.key u = k) g
  ∧ (∀ a, a ∈ UserWeeklyTotals.author <$> g
          ↔ counted datepart_week Comments yr (a, k.1, k.2)).
Proof.
  intros Hg. pose proof Hg as [Hne Hall]%group_by_member.
  apply elem_of_group_by in Hg as [_ ->].
  split; [done|]. split; [|split].
  - apply NoDup_fmap_2_strong.
    + intros u v [Hu Hu']%list_elem_of_filter [Hv Hv']%list_elem_of_filter Huv.
      apply (NoDup_fmap_inj_on totals_id (UserWeeklyTotals_cte datepart_week Comments yr));
        [apply totals_NoDup|done|done|].
      unfold totals_id. unfold UserWeeklyTotals.key in Hu, Hv.
      rewrite Huv. congruence.
    + apply NoDup_filter. eapply NoDup_fmap_1, totals_NoDup.
  - eapply Forall_impl; [exact Hall|]. by intros u [-> ?].
  - intros a. rewrite <-totals_counted, !list_elem_of_fmap.
    setoid_rewrite list_elem_of_filter. split.
    + intros (u & -> & Hk & Hu). exists u. split; [|done].
      unfold totals_id. by rewrite <-Hk.
    + intros (u & Hid & Hu). exists u. unfold totals_id in Hid.
      destruct k. simpl in Hid. unfold UserWeeklyTotals.key.
      injection Hid as -> -> ->. done.
Qed.

Lemma week_group_size Comments yr k g :
  (k, g) ∈ group_by UserWeeklyTotals.key (UserWeeklyTotals_cte datepart_week Comments yr) →
  total_users (aggregate k g) = Z.of_nat (length g)
  ∧ 1 <= Z.of_nat (length g)
  ∧ Forall (λ u, 0 <= UserWeeklyTotals.posts u
                 ∧ 0 <= UserWeeklyTotals.comments u
                 ∧ UserWeeklyTotals.total_activity u
                   = UserWeeklyTotals.posts u + UserWeeklyTotals.comments u
                 ∧ 1 <= UserWeeklyTotals.total_activity u) g.
Proof.
  intros (Hne & Hnd & Hall & _)%week_group. split; [|split].
  - simpl. by rewrite remove_dups_id, length_fmap.
  - destruct g; [done|]. simpl length. lia.
  - eapply Forall_impl; [exact Hall|]. intros u [Hu _]. by apply totals_row in Hu.
Qed.

Lemma week_group_authors Comments yr k g :
  (k, g) ∈ group_by UserWeeklyTotals.key (UserWeeklyTotals_cte datepart_week Comments yr) →
  remove_dups (UserWeeklyTotals.author <$> g)
  ≡ₚ remove_dups (author <$> actions_of_week datepart_week Comments yr k.1 k.2).
Proof.
  intros (_ & _ & _ & Hauthors)%week_group.
  apply NoDup_Permutation; [apply NoDup_remove_dups..|].
  intros a. rewrite !elem_of_remove_dups, Hauthors.
  unfold counted, actions_of_week, activity_key. rewrite list_elem_of_fmap.
  setoid_rewrite list_elem_of_filter. split.
  - intros (c & Hin & Hy & [= <- <- <-]). by exists c.
  - intros (c & -> & (Hy & <- & <-) & Hin). by exists c.
Qed.

(** C3: in every row that the yearly aggregation returns, the five tier
    counts add up to [total_users], and [total_users] is the number of
    distinct accounts with at least one post or comment of the fetched year
    in the row's week; an account without an action in the week has no
    [UserWeeklyTotals] row, so no tier counts it. *)
Theorem tier_counts_partition_total_users (Comments : list Comment) (yr : Z) :
  Forall (λ s,
      ultra_active_users s + very_active_users s + active_users s
      + occasional_users s + low_activity_users s = total_users s
      ∧ total_users s
        = Z.of_nat (length (remove_dups
            (author <$> actions_of_week datepart_week Comments yr (year s) (week s)))))
    (fetchWeeklyStats datepart_week Comments yr).
Proof.
  unfold fetchWeeklyStats. rewrite order_by_Forall, Forall_fmap.
  apply Forall_forall. intros [k g] Hg. unfold compose.
  pose proof (week_group_size _ _ _ _ Hg) as (Husers & _ & Hrows).
  split.
  - rewrite Husers. cbn [aggregate ultra_active_users very_active_users
      active_users occasional_users low_activity_users].
    apply tiers_partition. eapply Forall_impl; [exact Hrows|]. by intros u (_ & _ & _ & ?).
  - cbn [aggregate total_users year week].
    by rewrite (week_group_authors _ _ _ _ Hg).
Qed.

(** C10: every row that the yearly aggregation returns has at least one
    user and at least as many posts and comments as users, and its week
    holds a post or comment of the fetched year: a week without one gets no
    row. *)
Theorem rows_have_users_and_actions (Comments : list Comment) (yr : Z) :
  Forall (λ s,
      1 <= total_users s
      ∧ total_users s <= total_posts s + total_comments s
      ∧ actions_of_week datepart_week Comments yr (year s) (week s) ≠ [])
    (fetchWeeklyStats datepart_week Comments yr).
Proof.
  unfold fetchWeeklyStats. rewrite order_by_Forall, Forall_fmap.
  apply Forall_forall. intros [k g] Hg. unfold compose.
  pose proof (week_group_size _ _ _ _ Hg) as (Husers & Hpos & Hrows).
  pose proof (week_group_authors _ _ _ _ Hg) as Hauthors.
  rewrite Husers. split; [done|]. split.
  - cbn [aggregate total_posts total_comments].
    rewrite <-sum_of_plus, <-(Z.mul_1_l (Z.of_nat (length g))).
    apply sum_of_ge. eapply Forall_impl; [exact Hrows|]. intros u. simpl. lia.
  - cbn [aggregate year week]. intros Hnil.
    rewrite Hnil in Hauthors. simpl in Hauthors.
    apply Permutation_nil_r in Hauthors.
    apply (f_equal length) in Hauthors.
    cbn [aggregate total_users] in Husers. rewrite Hauthors in Husers.
    simpl in Husers. lia.
Qed.

(** No in-range post or comment, no row. *)
Lemma fetchWeeklyStats_empty (Comments : list Comment) (yr : Z) :
  Forall (λ c, ¬ in_year yr c) Comments →
  fetchWeeklyStats datepart_week Comments yr = [].
Proof.
  intros Hnone.
  unfold fetchWeeklyStats, UserWeeklyTotals_cte, UserWeeklyActivity_cte,
    post_rows, comment_rows.
  rewrite !filter_none; [done| |];
    (eapply Forall_impl; [exact Hnone|]; intros c Hc [_ ?]%andb_True; done).
Qed.

End Query.
(** *** The keyed write *)

Lemma of_row_to_row now s : of_row (to_row now s) = s.
Proof. by destruct s. Qed.

Lemma key_of_row r : stats_key (of_row r) = weekly_stats.key r.
Proof. done. Qed.

Lemma of_row_insert_run now (db : weekly_stats.table) s :
  of_row <$> insert_run now db s
  = filter (λ x, stats_key x ≠ stats_key s) (of_row <$> db) ++ [s].
Proof.
  unfold insert_run.
  rewrite fmap_app, list_fmap_singleton, of_row_to_row. f_equal.
  induction db as [|r db IH]; [done|].
  rewrite fmap_cons, !filter_cons, key_of_row.
  destruct (decide (weekly_stats.key r ≠ stats_key s)); by rewrite ?fmap_cons, IH.
Qed.

(** The columns of the table after a batch: the old rows whose key the
    batch does not write, then the batch's last write of each key. *)
Lemma of_row_insertMany clock i (db : weekly_stats.table) stats :
  of_row <$> insertMany clock i db stats
  = filter (λ x, stats_key x ∉ stats_key <$> stats) (of_row <$> db)
    ++ last_writes stats.
Proof.
  revert i db. induction stats as [|s rest IH]; intros i db; simpl.
  - rewrite app_nil_r. symmetry. apply filter_all, Forall_forall.
    intros x _. apply not_elem_of_nil.
  - rewrite IH, of_row_insert_run, filter_app, list_filter_filter, <-app_assoc.
    f_equal; [|f_equal].
    + apply list_filter_iff. intros x. rewrite not_elem_of_cons. tauto.
    + rewrite filter_singleton; [|exact []].
      destruct (decide (stats_key s ∈ stats_key <$> rest));
        [by rewrite decide_False by tauto|by rewrite decide_True].
Qed.

Lemma last_writes_subset stats s : s ∈ last_writes stats → s ∈ stats.
Proof.
  induction stats as [|x rest IH]; simpl; [done|].
  rewrite elem_of_app, elem_of_cons. intros [Hs|Hs]; [|by right; apply IH].
  destruct (decide _); [by apply elem_of_nil in Hs|].
  apply list_elem_of_singleton in Hs. by left.
Qed.

Lemma last_writes_NoDup stats :
  NoDup (stats_key <$> stats) → last_writes stats = stats.
Proof.
  induction stats as [|s rest IH]; simpl; [done|].
  rewrite NoDup_cons. intros [Hs Hrest].
  by rewrite decide_False, IH.
Qed.

(** Writing a batch a second time changes no [WeeklyStats] column. *)
Lemma saveToDatabase_twice clock1 clock2 (db : weekly_stats.table) stats :
  of_row <$> saveToDatabase clock2 (saveToDatabase clock1 db stats) stats
  = of_row <$> saveToDatabase clock1 db stats.
Proof.
  unfold saveToDatabase. rewrite (of_row_insertMany clock2).
  rewrite (of_row_insertMany clock1), filter_app.
  rewrite list_filter_filter_l by done.
  rewrite (filter_none _ (last_writes stats)); [by rewrite app_nil_r|].
  apply Forall_forall. intros s Hs%last_writes_subset Hnot.
  by apply Hnot, list_elem_of_fmap_2.
Qed.

(** The primary key survives the write. *)
Lemma insert_run_pk_unique now (db : weekly_stats.table) s :
  weekly_stats.pk_unique db → weekly_stats.pk_unique (insert_run now db s).
Proof.
  unfold weekly_stats.pk_unique, insert_run. intros Hdb.
  rewrite fmap_app. apply NoDup_app. split; [|split].
  - induction db as [|r db IH]; [constructor|].
    rewrite fmap_cons in Hdb. apply NoDup_cons in Hdb as [Hr Hdb].
    rewrite filter_cons. destruct (decide _); [|by apply IH].
    rewrite fmap_cons. apply NoDup_cons. split; [|by apply IH].
    intros (r' & Hk & [_ Hin]%list_elem_of_filter)%list_elem_of_fmap.
    apply Hr, list_elem_of_fmap. by exists r'.
  - intros k (r & -> & [Hne _]%list_elem_of_filter)%list_elem_of_fmap.
    intros Heq%list_elem_of_singleton. by apply Hne.
  - apply NoDup_singleton.
Qed.

Lemma saveToDatabase_pk_unique clock (db : weekly_stats.table) stats :
  weekly_stats.pk_unique db →
  weekly_stats.pk_unique (saveToDatabase clock db stats).
Proof.
  unfold saveToDatabase. generalize 0%nat. intros i Hdb. revert i db Hdb.
  induction stats as [|s rest IH]; intros i db Hdb; [done|].
  simpl. by apply IH, insert_run_pk_unique.
Qed.

Section Reprocessing.
Variable datepart_week : Date.t → Z.

Lemma fetchWeeklyStats_keys_NoDup Comments yr :
  NoDup (stats_key <$> fetchWeeklyStats datepart_week Comments yr).
Proof.
  unfold fetchWeeklyStats. rewrite order_by_perm.
  rewrite group_by_keys by (by intros [??] ?). apply NoDup_remove_dups.
Qed.

(** C8: saving the aggregation of the same [Comments] rows and year a second
    time leaves every [WeeklyStats] column of every stored row as the first
    save left it (only [fetched_at], the time of the write, is new); and
    after a save the table holds the aggregated rows themselves under their
    keys, next to the rows of other keys. *)
Theorem reprocessing_a_year_is_idempotent (clock1 clock2 : nat → string)
    (db : weekly_stats.table) (Comments : list Comment) (yr : Z) :
  of_row <$> saveToDatabase clock2
               (saveToDatabase clock1 db (fetchWeeklyStats datepart_week Comments yr))
               (fetchWeeklyStats datepart_week Comments yr)
  = of_row <$> saveToDatabase clock1 db (fetchWeeklyStats datepart_week Comments yr)
  ∧ of_row <$> saveToDatabase clock1 db (fetchWeeklyStats datepart_week Comments yr)
    = filter (λ x, stats_key x
                   ∉ stats_key <$> fetchWeeklyStats datepart_week Comments yr)
        (of_row <$> db)
      ++ fetchWeeklyStats datepart_week Comments yr.
Proof.
  split; [apply saveToDatabase_twice|].
  unfold saveToDatabase. rewrite of_row_insertMany.
  by rewrite last_writes_NoDup by apply fetchWeeklyStats_keys_NoDup.
Qed.

End Reprocessing.

(** The scenario of the specification: an account with 55 posts in a week
    counts as ultra active, one with two posts and a comment as occasional;
    actions outside the fetched year are not read. *)
Example aggregation_of_sample_year :
  fetchWeeklyStats Samples.datepart_week_us Samples.comments_2021 2021
  = [ {| year := 2021; week := 2; week_start := Date.mk 2021 1 8;
         total_users := 2; total_posts := 57; total_comments := 1;
         ultra_active_users := 1; very_active_users := 0; active_users := 0;
         occasional_users := 1; low_activity_users := 0 |};
      {| year := 2021; week := 3; week_start := Date.mk 2021 1 15;
         total_users := 1; total_posts := 0; total_comments := 1;
         ultra_active_users := 0; very_active_users := 0; active_users := 0;
         occasional_users := 0; low_activity_users := 1 |} ].
Proof. reflexivity. Qed.

End FetchFacts.

(** ** Round to nearest keeps the sign *)

Module Binary64Facts.

Import JS Binary64.

Lemma scaled_at_least_1 (n d : positive) (e : Z) :
  e <= Z.log2 (Z.pos n) - Z.log2 (Z.pos d) - 52 →
  0 < (scaled n d e).2 <= (scaled n d e).1.
Proof.
  intros He. unfold scaled.
  destruct (Z.log2_spec (Z.pos n)) as [Hn _]; [done|].
  destruct (Z.log2_spec (Z.pos d)) as [_ Hd]; [done|].
  pose proof (Z.log2_nonneg (Z.pos n)) as Hln.
  pose proof (Z.log2_nonneg (Z.pos d)) as Hld.
  set (ln := Z.log2 (Z.pos n)) in *. set (ld := Z.log2 (Z.pos d)) in *.
  destruct (Z.leb_spec 0 e) as [Hpos|Hneg]; simpl.
  - assert (0 < 2 ^ e) by (by apply Z.pow_pos_nonneg).
    split; [lia|].
    assert (2 ^ e <= 2 ^ (ln - ld - 52)) by (apply Z.pow_le_mono_r; lia).
    assert (2 ^ Z.succ ld * 2 ^ (ln - ld - 52) <= 2 ^ ln).
    { rewrite <-Z.pow_add_r by lia. apply Z.pow_le_mono_r; lia. }
    nia.
  - split; [lia|].
    assert (0 < 2 ^ (- e)) by (apply Z.pow_pos_nonneg; lia).
    destruct (Z.le_gt_cases (Z.succ ld) ln) as [Hle|Hgt].
    + assert (2 ^ Z.succ ld <= 2 ^ ln) by (apply Z.pow_le_mono_r; lia). nia.
    + assert (2 ^ (Z.succ ld - ln) <= 2 ^ (- e)) by (apply Z.pow_le_mono_r; lia).
      assert (2 ^ ln * 2 ^ (Z.succ ld - ln) = 2 ^ Z.succ ld).
      { rewrite <-Z.pow_add_r by lia. f_equal. lia. }
      nia.
Qed.

Lemma exponent_le (n d : positive) :
  exponent n d <= Z.log2 (Z.pos n) - Z.log2 (Z.pos d) - 52.
Proof.
  unfold exponent.
  destruct (scaled n d _) as [sn sd]. destruct (sn <? 2 ^ 52 * sd); lia.
Qed.

Lemma nearest_even_pos (n d : Z) : 0 < d <= n → 0 < nearest_even n d.
Proof.
  intros Hnd. unfold nearest_even.
  assert (0 < n / d) by (by apply Z.div_str_pos).
  destruct (2 * (n mod d) <? d); [done|].
  destruct (d <? 2 * (n mod d)); [lia|].
  destruct (Z.even (n / d)); lia.
Qed.

Lemma round_pos_pos (n d : positive) : (0 < round_pos n d)%Q.
Proof.
  unfold round_pos.
  pose proof (scaled_at_least_1 n d _ (exponent_le n d)) as Hs.
  destruct (scaled n d (exponent n d)) as [sn sd]. simpl in Hs.
  pose proof (nearest_even_pos sn sd Hs) as Hm.
  destruct (Z.leb_spec 0 (exponent n d)) as [He|He].
  - unfold Qlt, inject_Z. cbn [Qnum Qden]. rewrite Z.mul_0_l, Z.mul_1_r.
    apply Z.mul_pos_pos; [exact Hm|]. by apply Z.pow_pos_nonneg.
  - unfold Qlt. cbn [Qnum Qden]. rewrite Z.mul_0_l, Z.mul_1_r. exact Hm.
Qed.

Lemma Q2Qc_pos (x : Q) : (0 < x)%Q → (0 < Q2Qc x)%Qc.
Proof.
  intros Hx. unfold Qclt. cbn [this Q2Qc]. rewrite !Qred_correct. exact Hx.
Qed.

Lemma sgn_opp (q : Qc) : sgn (- q)%Qc = (- sgn q)%Z.
Proof.
  unfold sgn, Qc_ltb.
  destruct (decide (0 < q)%Qc) as [Hpos|Hnpos].
  - rewrite (bool_decide_eq_true_2 (0 < q)%Qc) by done.
    rewrite (bool_decide_eq_false_2 (0 < - q)%Qc).
    + rewrite (bool_decide_eq_true_2 (- q < 0)%Qc); [done|].
      apply Qclt_minus_iff. by replace (0 + - - q)%Qc with q by ring.
    + intros H. apply Qclt_minus_iff in H.
      replace (- q + - 0)%Qc with (- q)%Qc in H by ring.
      apply (Qclt_not_le _ _ Hpos). apply Qclt_le_weak.
      apply Qclt_minus_iff. by replace (0 + - q)%Qc with (- q)%Qc by ring.
  - rewrite (bool_decide_eq_false_2 (0 < q)%Qc) by done.
    destruct (decide (q < 0)%Qc) as [Hneg|Hnneg].
    + rewrite (bool_decide_eq_true_2 (q < 0)%Qc) by done.
      rewrite (bool_decide_eq_true_2 (0 < - q)%Qc); [done|].
      apply Qclt_minus_iff in Hneg.
      by replace (0 + - q)%Qc with (- q)%Qc in Hneg by ring.
    + rewrite (bool_decide_eq_false_2 (q < 0)%Qc) by done.
      assert (q = 0)%Qc as -> by (apply Qcle_antisym; by apply Qcnot_lt_le).
      reflexivity.
Qed.

(** Rounding to the nearest double keeps the sign: the exponent is not
    bounded, so that nothing underflows. *)
Lemma round_keeps_sign : keeps_sign round.
Proof.
  intros q. unfold round.
  destruct (Qnum q) as [|n|n] eqn:Hnum; [done| |].
  - pose proof (Q2Qc_pos _ (round_pos_pos n (Qden q))) as Hr.
    assert (Hq : (0 < q)%Qc).
    { unfold Qclt, Qlt. simpl. rewrite Hnum. lia. }
    unfold sgn, Qc_ltb. by rewrite !bool_decide_eq_true_2.
  - pose proof (Q2Qc_pos _ (round_pos_pos n (Qden q))) as Hr.
    assert (Hq : (q < 0)%Qc).
    { unfold Qclt, Qlt. simpl. rewrite Hnum. lia. }
    rewrite sgn_opp. unfold sgn, Qc_ltb.
    rewrite (bool_decide_eq_true_2 _ Hr).
    rewrite (bool_decide_eq_false_2 (0 < q)%Qc)
      by (by apply Qcle_not_lt, Qclt_le_weak).
    by rewrite (bool_decide_eq_true_2 _ Hq).
Qed.

End Binary64Facts.

(** The doubles nearest to 0.1 and to 0.3; 2^53 + 1 and 2^53 + 3 lie half
    way between two doubles and go to the one with the even significand;
    0.1 + 0.2 is not the double nearest to 0.3. *)
Example round_examples :
  Binary64.round (Q2Qc (1 # 10)) = Q2Qc (3602879701896397 # 36028797018963968)
  ∧ Binary64.round (Q2Qc (3 # 10)) = Q2Qc (5404319552844595 # 18014398509481984)
  ∧ Binary64.round (JS.of_Z (2 ^ 53 + 1)) = JS.of_Z (2 ^ 53)
  ∧ Binary64.round (JS.of_Z (2 ^ 53 + 3)) = JS.of_Z (2 ^ 53 + 4)
  ∧ Binary64.round (Binary64.round (Q2Qc (1 # 10)) + Binary64.round (Q2Qc (2 # 10)))%Qc
    ≠ Binary64.round (Q2Qc (3 # 10)).
Proof.
  repeat split; by_evaluation.
Qed.

(** Closed equations on doubles are decided after both sides have been
    evaluated. *)
Ltac by_double_evaluation :=
  vm_compute; first [reflexivity | by_evaluation].

(** ** The dashboard queries *)

Module ServerFacts.

Import JS Server Spec.
Local Open Scope Qc_scope.

(** *** Numbers *)

Lemma Qc_eqb_eq a b : Qc_eqb a b = true ↔ a = b.
Proof. unfold Qc_eqb. by rewrite bool_decide_eq_true. Qed.

Lemma Qc_eqb_neq a b : Qc_eqb a b = false ↔ a ≠ b.
Proof. unfold Qc_eqb. by rewrite bool_decide_eq_false. Qed.

Lemma Qc_ltb_lt a b : Qc_ltb a b = true ↔ a < b.
Proof. unfold Qc_ltb. by rewrite bool_decide_eq_true. Qed.

Lemma Qc_ltb_nlt a b : Qc_ltb a b = false ↔ ¬ a < b.
Proof. unfold Qc_ltb. by rewrite bool_decide_eq_false. Qed.

Lemma truthy_Fin q : q ≠ 0 → truthy (Fin q) = true.
Proof. intros Hq. simpl. by rewrite (proj2 (Qc_eqb_neq q 0)). Qed.

Lemma of_Z_100_neq_0 : of_Z 100 ≠ 0.
Proof. rewrite <-Z2Qc_inj_0. by intros H%Z2Qc_inj. Qed.

Lemma sgn_0 : sgn 0 = 0%Z.
Proof. reflexivity. Qed.

Lemma sgn_pos q : 0 < q → sgn q = 1%Z.
Proof. intros Hq. unfold sgn. by rewrite (proj2 (Qc_ltb_lt 0 q)). Qed.

Lemma sgn_neg q : q < 0 → sgn q = (-1)%Z.
Proof.
  intros Hq. unfold sgn.
  rewrite (proj2 (Qc_ltb_nlt 0 q)) by (by apply Qcle_not_lt, Qclt_le_weak).
  by rewrite (proj2 (Qc_ltb_lt q 0)).
Qed.

Lemma sgn_eq_0 q : sgn q = 0%Z ↔ q = 0.
Proof.
  split; [|by intros ->].
  unfold sgn. destruct (Qc_ltb 0 q) eqn:Hpos; [done|].
  destruct (Qc_ltb q 0) eqn:Hneg; [done|]. intros _.
  apply Qc_ltb_nlt in Hpos, Hneg.
  apply Qcle_antisym; by apply Qcnot_lt_le.
Qed.

(** *** Roundings *)

Lemma exact_keeps_sign : keeps_sign exact.
Proof. by intros q. Qed.

Lemma keeps_sign_0 fl : keeps_sign fl → fl 0 = 0.
Proof. intros Hfl. apply sgn_eq_0. by rewrite Hfl. Qed.

Lemma keeps_sign_neq_0 fl q : keeps_sign fl → q ≠ 0 → fl q ≠ 0.
Proof. intros Hfl Hq H0%sgn_eq_0. rewrite Hfl in H0. by apply sgn_eq_0 in H0. Qed.

Lemma keeps_sign_pos fl q : keeps_sign fl → 0 < q → sgn (fl q) = 1%Z.
Proof. intros Hfl Hq. by rewrite Hfl, sgn_pos. Qed.

(** *** The change from year to year *)

Lemma change_same fl a : fl 0 = 0 → truthy (change fl a a) = false.
Proof.
  intros H0. unfold change. cbn [sub rounded].
  replace (a - a) with (Q2Qc 0) by ring. rewrite H0. cbn [div].
  destruct (Qc_eqb a 0) eqn:Ha; [reflexivity|]. cbn [rounded].
  replace (0 / a) with (Q2Qc 0) by (unfold Qcdiv; ring).
  rewrite H0. cbn [mul rounded].
  replace (0 * of_Z 100) with (Q2Qc 0) by ring.
  rewrite H0. reflexivity.
Qed.

Lemma change_finite fl a p :
  keeps_sign fl → p ≠ 0 → a ≠ p →
  change fl a p = Fin (fl (fl (fl (a - p) / p) * of_Z 100))
  ∧ truthy (change fl a p) = true.
Proof.
  intros Hfl Hp Hap. unfold change. cbn [sub rounded div].
  rewrite (proj2 (Qc_eqb_neq p 0)) by done. cbn [rounded mul]. split; [done|].
  apply truthy_Fin. apply keeps_sign_neq_0; [done|]. intros H.
  apply Qcmult_integral in H as [H|H]; [|by apply of_Z_100_neq_0].
  revert H. apply keeps_sign_neq_0; [done|]. intros H.
  apply Qcmult_integral in H as [H|H].
  - revert H. apply keeps_sign_neq_0; [done|]. intros H.
    apply Hap. rewrite <-(Qcplus_0_l p), <-H. ring.
  - apply Hp. rewrite <-(Qcmult_1_l p), <-(Qcmult_inv_l p Hp), H. ring.
Qed.

Lemma change_from_zero fl a : keeps_sign fl → 0 < a → change fl a 0 = PInf.
Proof.
  intros Hfl Ha. unfold change. cbn [sub rounded div].
  replace (a - 0) with a by ring.
  rewrite (proj2 (Qc_eqb_eq 0 0) eq_refl), (keeps_sign_pos fl a Hfl Ha).
  reflexivity.
Qed.

Lemma change_zero_zero fl : fl 0 = 0 → change fl 0 0 = NaN.
Proof.
  intros H0. unfold change. cbn [sub rounded].
  replace (0 - 0) with (Q2Qc 0) by ring. rewrite H0. reflexivity.
Qed.

(** *** The response *)

Lemma getStats_Ok fl AVG Math_sqrt db ph resp :
  getStats fl AVG Math_sqrt db ph = Ok resp →
  ∃ peak last,
    peakRow db = Some peak ∧ lastCompleteWeekRow db = Some last
    ∧ weeklyStats resp = getWeeklyStats AVG db ph
    ∧ peakWeeklyUsers (summary resp) = weekly_stats.total_users peak
    ∧ peakWeekDate (summary resp) = weekly_stats.week_start peak
    ∧ lastCompleteWeekUsers (summary resp) = weekly_stats.total_users last
    ∧ lastCompleteWeekDate (summary resp) = weekly_stats.week_start last
    ∧ yearOverYear (insights resp) = yearOverYear_of fl AVG db ph
    ∧ priceUserCorrelation (correlations (insights resp))
      = toFixed 3 (correlation fl AVG Math_sqrt db ph)
    ∧ activityDistribution (insights resp)
      = {| ultraActive := percentage fl (ultra (tierRow db)) (totalTiers (tierRow db));
           veryActive := percentage fl (very (tierRow db)) (totalTiers (tierRow db));
           active := percentage fl (tr_active (tierRow db)) (totalTiers (tierRow db));
           occasional :=
             percentage fl (tr_occasional (tierRow db)) (totalTiers (tierRow db));
           lowActivity := percentage fl (low (tierRow db)) (totalTiers (tierRow db)) |}.
Proof.
  unfold getStats.
  destruct (peakRow db) as [peak|]; [|done].
  destruct (lastCompleteWeekRow db) as [last|]; [|done].
  simpl. intros [= <-]. by exists peak, last.
Qed.

(** *** Year over year *)

Lemma yearOverYear_lookup fl AVG db ph i row :
  yearRows AVG db !! i = Some row →
  ∃ y, yearOverYear_of fl AVG db ph !! i = Some y
       ∧ YearOverYear.year y = yr_year row
       ∧ YearOverYear.avgPrice y
         = match priceRow AVG ph (yr_year row) with
           | Some p => if truthy (Fin p) then Some (toFixed_finite 4 p) else None
           | None => None
           end
       ∧ YearOverYear.changePercent y
         = fixed_if_truthy 1 (changePercent_raw fl row (prevYear (yearRows AVG db) i)).
Proof.
  intros Hrow. unfold yearOverYear_of.
  rewrite list_lookup_imap, Hrow. simpl. eauto.
Qed.

Lemma yearOverYear_lookup_inv fl AVG db ph i y :
  yearOverYear_of fl AVG db ph !! i = Some y → ∃ row, yearRows AVG db !! i = Some row.
Proof.
  unfold yearOverYear_of. rewrite list_lookup_imap.
  destruct (yearRows AVG db !! i); [eauto|done].
Qed.

(** C9: a year whose average of weekly users equals the one of the year
    before it has no [changePercent] in the year-over-year view, the same as
    the first year of the series: the computed change, 0 (or [NaN] when both
    averages are 0), does not pass the truthiness test that precedes the
    rounding.  That holds for every arithmetic in which the difference of
    equal numbers, 0, stays 0. *)
Theorem unchanged_year_has_no_changePercent
    (fl : Qc → Qc) (AVG : list Qc → Qc) (Math_sqrt : Qc → Qc)
    (db : weekly_stats.table) (ph : price_history.table)
    (resp : StatsResponse) (i : nat) (row prev : YearRow) :
  fl 0 = 0 →
  getStats fl AVG Math_sqrt db ph = Ok resp →
  yearRows AVG db !! S i = Some row →
  yearRows AVG db !! i = Some prev →
  avg_weekly_users row = avg_weekly_users prev →
  YearOverYear.changePercent <$> yearOverYear (insights resp) !! S i = Some None
  ∧ YearOverYear.changePercent <$> yearOverYear (insights resp) !! 0%nat = Some None.
Proof.
  intros H0 (_ & _ & _ & _ & _ & _ & _ & _ & _ & -> & _)%getStats_Ok Hrow Hprev Havg.
  split.
  - destruct (yearOverYear_lookup fl AVG db ph _ _ Hrow) as (y & -> & _ & _ & Hy).
    simpl. rewrite Hy. unfold prevYear. simpl. rewrite Nat.sub_0_r, Hprev.
    simpl. by rewrite Havg, change_same.
  - destruct (yearRows AVG db) as [|first rows] eqn:Hrows; [done|].
    destruct (yearOverYear_lookup fl AVG db ph 0 first) as (y & -> & _ & _ & Hy);
      [by rewrite Hrows|].
    simpl. by rewrite Hy.
Qed.

Lemma unchanged_year_witness :
  ∃ resp,
    getStats Binary64.round Binary64.avg Samples.sqrt_on_squares Samples.three_years []
    = Ok resp
    ∧ YearOverYear.changePercent <$> yearOverYear (insights resp) !! 2%nat = Some None
    ∧ YearOverYear.changePercent <$> yearOverYear (insights resp) !! 0%nat = Some None.
Proof.
  eexists. split; [reflexivity|].
  eapply (unchanged_year_has_no_changePercent
            Binary64.round Binary64.avg Samples.sqrt_on_squares
            Samples.three_years [] _ 1);
    [reflexivity|reflexivity|reflexivity|reflexivity|].
  apply Qc_is_canon. reflexivity.
Defined.

(** C2, as the code has it: the first entry of the series has no
    [changePercent].  A later entry is compared with the entry before it in
    the series.  When that one's average is not zero and differs from the
    entry's own, [changePercent] is [((a - p) / p) * 100] as the run time
    computes it, each operation rounded to a double, printed with one
    decimal; the division is not guarded, so after an average of zero the
    value is +Infinity when the entry's own average is positive, and absent
    only when that is zero too. *)
Theorem changePercent_by_cases
    (fl : Qc → Qc) (AVG : list Qc → Qc) (Math_sqrt : Qc → Qc)
    (db : weekly_stats.table) (ph : price_history.table)
    (resp : StatsResponse) (i : nat) (row : YearRow) :
  keeps_sign fl →
  getStats fl AVG Math_sqrt db ph = Ok resp →
  yearRows AVG db !! i = Some row →
  ∃ y, yearOverYear (insights resp) !! i = Some y
       ∧ match i with
         | O => YearOverYear.changePercent y = None
         | S j =>
             ∃ prev, yearRows AVG db !! j = Some prev
               ∧ (avg_weekly_users prev ≠ 0 →
                  avg_weekly_users row ≠ avg_weekly_users prev →
                  YearOverYear.changePercent y
                  = Some (Fin (toFixed_finite 1
                      (fl (fl (fl (avg_weekly_users row - avg_weekly_users prev)
                               / avg_weekly_users prev)
                           * of_Z 100)))))
               ∧ (avg_weekly_users prev = 0 → 0 < avg_weekly_users row →
                  YearOverYear.changePercent y = Some PInf)
               ∧ (avg_weekly_users prev = 0 → avg_weekly_users row = 0 →
                  YearOverYear.changePercent y = None)
         end.
Proof.
  intros Hfl (_ & _ & _ & _ & _ & _ & _ & _ & _ & -> & _)%getStats_Ok Hrow.
  destruct (yearOverYear_lookup fl AVG db ph _ _ Hrow) as (y & Hy & _ & _ & Hc).
  exists y. split; [done|]. rewrite Hc. destruct i as [|j]; [done|].
  destruct (lookup_lt_is_Some_2 (yearRows AVG db) j) as [prev Hprev].
  { apply lookup_lt_Some in Hrow. lia. }
  exists prev. split; [done|].
  unfold prevYear. simpl. rewrite Nat.sub_0_r, Hprev. simpl.
  split; [|split].
  - intros Hp Hne. destruct (change_finite fl _ _ Hfl Hp Hne) as [-> ->]. done.
  - intros -> Hpos. by rewrite change_from_zero.
  - intros -> ->. by rewrite change_zero_zero by (by apply keeps_sign_0).
Qed.

(** With doubles, a year of 103 users a week after a year of 80 has a
    change of 28.749999999999996, printed as 28.7. *)
Lemma changePercent_by_cases_witness :
  ∃ resp,
    getStats Binary64.round Binary64.avg Samples.sqrt_on_squares
      Samples.years_80_103 [] = Ok resp
    ∧ YearOverYear.changePercent <$> yearOverYear (insights resp) !! 1%nat
      = Some (Some (Fin (Q2Qc (287 # 10)))).
Proof.
  eexists. split; [reflexivity|].
  match goal with
  | |- context [insights ?r] =>
      destruct (changePercent_by_cases
                  Binary64.round Binary64.avg Samples.sqrt_on_squares
                  Samples.years_80_103 [] r 1 _
                  Binary64Facts.round_keeps_sign eq_refl eq_refl)
        as (y & -> & prev & Hprev & Hvalue & _)
  end.
  simpl. f_equal. injection Hprev as <-.
  rewrite Hvalue; [by_evaluation| |];
    apply (bool_decide_unpack _); vm_compute; exact I.
Defined.

(** C2 as stated fails on three years with averages 0, 5 and 5: the second
    year follows an average of zero, and its [changePercent] is not absent
    but +Infinity. *)
Lemma changePercent_absent_iff_fails :
  ¬ changePercent_absent_iff Binary64.round Binary64.avg Samples.three_years [].
Proof.
  intros H.
  destruct (H 1%nat _ _ eq_refl eq_refl) as [_ Hback].
  assert (Habsent : Some PInf = None); [|discriminate Habsent].
  apply Hback. right. eexists. split; [reflexivity|].
  by_evaluation.
Qed.

(** C1, as the code has it: the [avgPrice] of a year in the year-over-year
    view is SQLite's [AVG] over all rows of [price_history] dated in that
    calendar year, of either coin and whether or not a stored week covers
    the day, printed with four decimals; it is absent when the year has no
    price row or when that average is zero. *)
Theorem avgPrice_is_calendar_year_mean
    (fl : Qc → Qc) (AVG : list Qc → Qc) (Math_sqrt : Qc → Qc)
    (db : weekly_stats.table) (ph : price_history.table)
    (resp : StatsResponse) (y : YearOverYear.t) :
  getStats fl AVG Math_sqrt db ph = Ok resp →
  y ∈ yearOverYear (insights resp) →
  YearOverYear.avgPrice y
  = match price_history.price_usd
          <$> filter (λ p, Date.year (price_history.date p) = YearOverYear.year y) ph
    with
    | [] => None
    | prices =>
        if decide (AVG prices = 0) then None
        else Some (toFixed_finite 4 (AVG prices))
    end.
Proof.
  intros (_ & _ & _ & _ & _ & _ & _ & _ & _ & -> & _)%getStats_Ok
         [i Hy]%list_elem_of_lookup_1.
  destruct (yearOverYear_lookup_inv _ _ _ _ _ _ Hy) as [row Hrow].
  destruct (yearOverYear_lookup fl AVG db ph _ _ Hrow) as (y' & Hy' & Hyear & Hprice & _).
  rewrite Hy in Hy'. injection Hy' as <-.
  rewrite Hprice, Hyear. unfold priceRow, sql_avg.
  destruct (price_history.price_usd <$> filter _ ph) as [|p prices]; [done|].
  simpl truthy. destruct (decide (AVG (p :: prices) = 0)) as [->|Hne]; [done|].
  by rewrite (proj2 (Qc_eqb_neq _ _) Hne).
Qed.

(** With doubles and a plain summation, five prices of 2021 that add up
    to 3/32 have an average just below 0.01875, printed as 0.0187. *)
Lemma avgPrice_is_calendar_year_mean_witness :
  ∃ resp,
    getStats Binary64.round Binary64.avg Samples.sqrt_on_squares
      Samples.two_weeks Samples.five_prices = Ok resp
    ∧ YearOverYear.avgPrice <$> yearOverYear (insights resp) !! 0%nat
      = Some (Some (Q2Qc (187 # 10000))).
Proof.
  eexists. split; [reflexivity|]. cbn [insights yearOverYear].
  assert (Hy : ∃ y, yearOverYear_of Binary64.round Binary64.avg
                      Samples.two_weeks Samples.five_prices !! 0%nat
                    = Some y) by (eexists; reflexivity).
  destruct Hy as [y Hy]. rewrite Hy. cbn [fmap option_fmap option_map]. f_equal.
  rewrite (avgPrice_is_calendar_year_mean
             Binary64.round Binary64.avg Samples.sqrt_on_squares
             Samples.two_weeks Samples.five_prices
             _ y eq_refl (list_elem_of_lookup_2 _ _ _ Hy)).
  vm_compute in Hy. injection Hy as <-. by_double_evaluation.
Defined.

(** C1 as stated fails on two weeks of 2021 with daily prices 1 and 3 in
    the first and 5 in the second: the weekly averages are 2 and 5, their
    mean is 7/2, and the view reports the average of the three prices, 3. *)
Lemma avgPrice_is_mean_of_weekly_means_fails :
  ¬ avgPrice_is_mean_of_weekly_means Binary64.round Binary64.avg
      Samples.two_weeks Samples.three_prices.
Proof.
  intros H.
  assert (Hy : ∃ y, yearOverYear_of Binary64.round Binary64.avg
                      Samples.two_weeks Samples.three_prices !! 0%nat
                    = Some y) by (eexists; reflexivity).
  destruct Hy as [y Hy].
  pose proof (H y (list_elem_of_lookup_2 _ _ _ Hy)) as Heq.
  vm_compute in Hy. injection Hy as <-. vm_compute in Heq. discriminate Heq.
Qed.

(** *** Keys *)

Lemma key_leb_spec (a b : Z * Z) :
  key_leb a b ↔ (a.1 < b.1 ∨ (a.1 = b.1 ∧ a.2 <= b.2))%Z.
Proof.
  unfold key_leb.
  destruct (Z.ltb_spec a.1 b.1), (Z.eqb_spec a.1 b.1), (Z.leb_spec a.2 b.2);
    simpl; intuition lia.
Qed.

Lemma key_leb_refl a : key_leb a a.
Proof. apply key_leb_spec. lia. Qed.

Lemma key_leb_total a b : ¬ key_leb a b → key_leb b a.
Proof. rewrite !key_leb_spec. lia. Qed.

Lemma key_leb_trans a b c : key_leb a b → key_leb b c → key_leb a c.
Proof. rewrite !key_leb_spec. lia. Qed.

(** *** Summary: the last complete week *)

(** C6, as the code has it: with fewer than two rows in [weekly_stats],
    [getStats] does not return the only row as the last complete week: it
    does not return at all, the run time raises the [TypeError] of reading
    a property of the row that a query did not find, the same as on an
    empty table.  With two rows or more it succeeds and reports the row
    with the second-highest key (year, week). *)
Theorem last_complete_week_needs_two_rows
    (fl : Qc → Qc) (AVG : list Qc → Qc) (Math_sqrt : Qc → Qc)
    (db : weekly_stats.table) (ph : price_history.table) :
  ((length db < 2)%nat → getStats fl AVG Math_sqrt db ph = Throw TypeError)
  ∧ ((2 ≤ length db)%nat → weekly_stats.pk_unique db →
     ∃ resp newest last,
       getStats fl AVG Math_sqrt db ph = Ok resp
       ∧ lastCompleteWeekUsers (summary resp) = weekly_stats.total_users last
       ∧ lastCompleteWeekDate (summary resp) = weekly_stats.week_start last
       ∧ newest ∈ db ∧ last ∈ db
       ∧ weekly_stats.key last ≠ weekly_stats.key newest
       ∧ key_leb (weekly_stats.key last) (weekly_stats.key newest)
       ∧ ∀ r, r ∈ db →
              r = newest ∨ key_leb (weekly_stats.key r) (weekly_stats.key last)).
Proof.
  split.
  - destruct db as [|r [|r' db]]; simpl; [done|done|lia].
  - intros Hlen Hpk. unfold getStats.
    assert (∃ peak, peakRow db = Some peak) as [peak ->].
    { unfold peakRow. destruct (order_by _ db) as [|p s] eqn:Hs; [|by exists p].
      apply (f_equal length) in Hs. rewrite order_by_length in Hs.
      simpl in Hs. lia. }
    unfold lastCompleteWeekRow.
    pose proof (order_by_sorted
                  (λ a b, key_leb (weekly_stats.key b) (weekly_stats.key a)) db)
      as Hsorted.
    pose proof (order_by_perm
                  (λ a b, key_leb (weekly_stats.key b) (weekly_stats.key a)) db)
      as Hperm.
    destruct (order_by _ db) as [|newest [|last rest]].
    { apply Permutation_length in Hperm. simpl in Hperm. lia. }
    { apply Permutation_length in Hperm. simpl in Hperm. lia. }
    simpl. eexists _, newest, last. split; [reflexivity|]. simpl.
    split; [done|]. split; [done|].
    specialize (Hsorted (λ a b, key_leb_total _ _)
                        (λ a b c H1 H2, key_leb_trans _ _ _ H2 H1)).
    apply StronglySorted_cons in Hsorted as [Hnewest Hsorted].
    apply StronglySorted_cons in Hsorted as [Hlast _].
    apply Forall_cons in Hnewest as [Hnl _].
    unfold weekly_stats.pk_unique in Hpk. rewrite <-Hperm in Hpk.
    rewrite !fmap_cons in Hpk. apply NoDup_cons in Hpk as [Hne _].
    rewrite not_elem_of_cons in Hne.
    split; [rewrite <-Hperm; left|].
    split; [rewrite <-Hperm; right; left|].
    split; [by intros Heq; destruct Hne as [Hne _]|].
    split; [done|].
    intros r. rewrite <-Hperm, !elem_of_cons. intros [->|[->|Hr]].
    + by left.
    + right. apply key_leb_refl.
    + right. by eapply Forall_forall in Hlast.
Qed.

Lemma last_complete_week_witness :
  getStats Binary64.round Binary64.avg Samples.sqrt_on_squares
    [Samples.week_row 2021 1 (Date.mk 2021 1 1) 100] [] = Throw TypeError
  ∧ ∃ resp,
      getStats Binary64.round Binary64.avg Samples.sqrt_on_squares Samples.three_weeks [] = Ok resp
      ∧ lastCompleteWeekUsers (summary resp) = 150%Z
      ∧ lastCompleteWeekDate (summary resp) = Date.mk 2021 1 8.
Proof.
  split.
  - apply (last_complete_week_needs_two_rows Binary64.round Binary64.avg Samples.sqrt_on_squares
             [Samples.week_row 2021 1 (Date.mk 2021 1 1) 100] []).
    simpl. lia.
  - destruct (proj2 (last_complete_week_needs_two_rows
                       Binary64.round Binary64.avg Samples.sqrt_on_squares Samples.three_weeks []))
      as (resp & newest & last & Hresp & _); [simpl; lia|by apply (bool_decide_unpack _)|].
    exists resp. split; [done|].
    injection Hresp as <-. by split.
Defined.

(** C6 as stated fails on a table of one row: what [getStats] raises is
    the [TypeError] of the run time, which names no condition; the code
    has no [InsufficientData]. *)
Lemma fails_with_InsufficientData_fails :
  ¬ fails_with_InsufficientData Binary64.round Binary64.avg Samples.sqrt_on_squares
      [Samples.week_row 2021 1 (Date.mk 2021 1 1) 100] [].
Proof.
  intros H. destruct H as (e & _ & Hcondition); [simpl; lia|].
  destruct e. discriminate Hcondition.
Qed.

(** The scenario of the specification: of three weeks with 100, 150 and
    120 users the last complete week is the one with 150. *)
Example last_complete_week_of_three :
  Server.lastCompleteWeekRow Samples.three_weeks
  = Some (Samples.week_row 2021 2 (Date.mk 2021 1 8) 150).
Proof. reflexivity. Qed.

(** *** Summary: the peak week *)

(** C7, as the code has it: the peak is a row with the highest
    [total_users]; the query names no second sort key, and among several
    such rows it is the first in the table's rowid order.  That is the
    earliest week when the rows stand in the table in ascending order of
    (year, week). *)
Theorem peak_is_first_maximum_in_table
    (fl : Qc → Qc) (AVG : list Qc → Qc) (Math_sqrt : Qc → Qc)
    (db : weekly_stats.table) (ph : price_history.table)
    (resp : StatsResponse) :
  getStats fl AVG Math_sqrt db ph = Ok resp →
  ∃ i r,
    db !! i = Some r
    ∧ peakWeeklyUsers (summary resp) = weekly_stats.total_users r
    ∧ peakWeekDate (summary resp) = weekly_stats.week_start r
    ∧ (∀ r', r' ∈ db →
         (weekly_stats.total_users r' <= weekly_stats.total_users r)%Z)
    ∧ (∀ j r', db !! j = Some r' →
         weekly_stats.total_users r' = weekly_stats.total_users r → (i ≤ j)%nat)
    ∧ (StronglySorted (λ a b, key_leb (weekly_stats.key a) (weekly_stats.key b)) db →
       ∀ r', r' ∈ db →
         weekly_stats.total_users r' = weekly_stats.total_users r →
         key_leb (weekly_stats.key r) (weekly_stats.key r')).
Proof.
  intros (peak & _ & Hpeak & _ & _ & -> & -> & _)%getStats_Ok.
  unfold peakRow in Hpeak.
  destruct (order_by _ db) as [|p s] eqn:Hs; [done|]. injection Hpeak as ->.
  destruct (order_by_desc_head weekly_stats.total_users db peak s Hs)
    as (i & Hi & Hmax & Hfirst).
  exists i, peak. repeat (split; [done|]).
  intros Hsorted r' [j Hj]%list_elem_of_lookup_1 Heq.
  specialize (Hfirst j r' Hj Heq).
  destruct (decide (i = j)) as [->|Hij].
  - rewrite Hi in Hj. injection Hj as <-. apply key_leb_refl.
  - apply (StronglySorted_lookup _ db i j peak r' Hsorted); [lia|done|done].
Qed.

Lemma peak_is_first_maximum_witness :
  ∃ resp,
    getStats Binary64.round Binary64.avg Samples.sqrt_on_squares Samples.three_weeks [] = Ok resp
    ∧ peakWeeklyUsers (summary resp) = 150%Z
    ∧ peakWeekDate (summary resp) = Date.mk 2021 1 8.
Proof.
  eexists. split; [reflexivity|].
  match goal with
  | |- context [summary ?r] =>
      destruct (peak_is_first_maximum_in_table
                  Binary64.round Binary64.avg Samples.sqrt_on_squares Samples.three_weeks [] r eq_refl)
        as ([|[|[|i]]] & row & Hrow & -> & -> & Hmax & _)
  end.
  - injection Hrow as <-. exfalso.
    assert (150 <= 100)%Z; [|lia].
    apply (Hmax (Samples.week_row 2021 2 (Date.mk 2021 1 8) 150)). right. left.
  - by injection Hrow as <-.
  - injection Hrow as <-. exfalso.
    assert (150 <= 120)%Z; [|lia].
    apply (Hmax (Samples.week_row 2021 2 (Date.mk 2021 1 8) 150)). right. left.
  - done.
Defined.

Lemma reprocessed_rows :
  Samples.reprocessed
  = [Fetch.to_row (Samples.at_noon 1)
       (Samples.stats_week 2021 1 (Date.mk 2021 1 1) 100);
     Fetch.to_row (Samples.at_noon 0)
       (Samples.stats_week 2020 1 (Date.mk 2020 1 1) 100)].
Proof. reflexivity. Qed.

(** C7 as stated fails on a table in which two weeks share the highest
    [total_users] and the earlier week has the higher rowid, as it has after
    its year was saved once more: the peak reported is the later week. *)
Lemma peak_is_earliest_maximum_fails :
  ¬ peak_is_earliest_maximum Binary64.round Binary64.avg Samples.sqrt_on_squares Samples.reprocessed [].
Proof.
  intros H. destruct (H _ eq_refl) as (r & Hin & _ & Hdate & _ & Hearly).
  rewrite reprocessed_rows in Hin, Hearly.
  apply elem_of_cons in Hin as [->|Hin].
  - specialize (Hearly _ (list_elem_of_further _ _ _ (list_elem_of_here _ _)) eq_refl).
    exact Hearly.
  - apply list_elem_of_singleton in Hin as ->. discriminate Hdate.
Qed.

(** *** Activity distribution *)

Lemma of_Z_neq_0 z : z ≠ 0%Z → of_Z z ≠ 0.
Proof. rewrite <-Z2Qc_inj_0. by intros Hz H%Z2Qc_inj. Qed.

Lemma percentage_nonzero fl tier total :
  total ≠ 0%Z →
  percentage fl tier total
  = Fin (toFixed_finite 1 (fl (fl (of_Z (to_number tier) / of_Z total) * of_Z 100))).
Proof.
  intros Htotal. unfold percentage. cbn [div].
  by rewrite (proj2 (Qc_eqb_neq _ _) (of_Z_neq_0 _ Htotal)).
Qed.

Lemma sql_sum_to_number {A} (f : A → Z) (l : list A) :
  to_number (sql_sum f l) = sum_of f l.
Proof. by destruct l. Qed.


(** C5, as the code has it: when the grand total of the five tier sums is
    not zero, each percentage is the tier's sum over all rows, divided by
    the grand total, times 100, as the run time computes it, the division
    and the multiplication rounded to a double, printed with one decimal.
    The division is not guarded; and on an empty table [getStats] fails
    before it reports a distribution. *)
Theorem distribution_percentages
    (fl : Qc → Qc) (AVG : list Qc → Qc) (Math_sqrt : Qc → Qc)
    (db : weekly_stats.table) (ph : price_history.table) :
  (db = [] → getStats fl AVG Math_sqrt db ph = Throw TypeError)
  ∧ ∀ resp,
      getStats fl AVG Math_sqrt db ph = Ok resp →
      totalTiers (tierRow db) ≠ 0%Z →
      let share tier :=
        Fin (toFixed_finite 1
               (fl (fl (of_Z (sum_of tier db) / of_Z (totalTiers (tierRow db)))
                    * of_Z 100))) in
      activityDistribution (insights resp)
      = {| ultraActive := share weekly_stats.ultra_active_users;
           veryActive := share weekly_stats.very_active_users;
           active := share weekly_stats.active_users;
           occasional := share weekly_stats.occasional_users;
           lowActivity := share weekly_stats.low_activity_users |}.
Proof.
  split; [by intros ->|].
  intros resp (_ & _ & _ & _ & _ & _ & _ & _ & _ & _ & _ & ->)%getStats_Ok Htotal.
  cbv zeta. rewrite !percentage_nonzero by done.
  unfold tierRow. cbn [ultra very tr_active tr_occasional low].
  by rewrite !sql_sum_to_number.
Qed.

(** With doubles, 46 accounts of 160 are 28.749999999999996 percent,
    printed as 28.7. *)
Lemma distribution_percentages_witness :
  getStats Binary64.round Binary64.avg Samples.sqrt_on_squares [] [] = Throw TypeError
  ∧ ∃ resp,
      getStats Binary64.round Binary64.avg Samples.sqrt_on_squares
        Samples.tiers_46_of_160 [] = Ok resp
      ∧ ultraActive (activityDistribution (insights resp)) = Fin (Q2Qc (287 # 10))
      ∧ veryActive (activityDistribution (insights resp)) = Fin (of_Z 0).
Proof.
  split.
  - by apply (distribution_percentages
                Binary64.round Binary64.avg Samples.sqrt_on_squares [] []).
  - eexists. split; [reflexivity|].
    match goal with
    | |- context [insights ?r] =>
        rewrite (proj2 (distribution_percentages
                          Binary64.round Binary64.avg Samples.sqrt_on_squares
                          Samples.tiers_46_of_160 [])
                   r eq_refl)
    end.
    + split; by_double_evaluation.
    + by vm_compute.
Defined.

(** C5 as stated fails: on the empty table [getStats] reports no
    distribution at all, and on a table whose rows count nothing the five
    percentages are [NaN]. *)
Lemma distribution_zero_without_data_fails :
  ¬ distribution_zero_without_data Binary64.round Binary64.avg Samples.sqrt_on_squares [] []
  ∧ ¬ distribution_zero_without_data Binary64.round Binary64.avg Samples.sqrt_on_squares
        Samples.two_empty_weeks [].
Proof.
  split.
  - intros H. by destruct (H eq_refl) as (resp & Hresp & _).
  - intros H. destruct (H eq_refl) as (resp & Hresp & Hzero).
    injection Hresp as <-. discriminate Hzero.
Qed.

Example distribution_of_empty_weeks :
  Server.percentage Binary64.round
    (Server.ultra (Server.tierRow Samples.two_empty_weeks))
    (Server.totalTiers (Server.tierRow Samples.two_empty_weeks)) = NaN.
Proof. reflexivity. Qed.

(** *** Correlation *)




Lemma getWeeklyStats_elem AVG db ph w :
  w ∈ getWeeklyStats AVG db ph →
  ws w ∈ db
  ∧ avg_price w
    = sql_avg AVG (price_history.price_usd <$> filter (price_joins (ws w)) ph).
Proof.
  unfold getWeeklyStats. rewrite elem_of_order_by, list_elem_of_fmap.
  by intros (r & -> & Hr).
Qed.

Lemma filter_ext_Forall {A} (P Q : A → Prop)
    `{!∀ x, Decision (P x), !∀ x, Decision (Q x)} (l : list A) :
  Forall (λ x, P x ↔ Q x) l → filter P l = filter Q l.
Proof.
  induction 1 as [|x l Hx _ IH]; [done|].
  rewrite !filter_cons, IH.
  destruct (decide (P x)), (decide (Q x)); tauto.
Qed.

Lemma omap_avg_price_length (l : list WeeklyStatsRow) :
  Forall positive_price l → length (omap avg_price l) = length l.
Proof.
  induction 1 as [|w l Hw _ IH]; [done|].
  unfold positive_price in Hw. cbn [omap list_omap].
  destruct (avg_price w); [|done]. cbn [length]. by f_equal.
Qed.

Section Correlation.
Variable fl : Qc → Qc.
Variable AVG : list Qc → Qc.
Variable Math_sqrt : Qc → Qc.

(** The loops of [calculateCorrelation] are the sums of the formula. *)
Lemma reduce_from_sum i acc (l : list Qc) :
  reduce_from (λ a b _, fl (a + b)) i acc l = foldl (λ a b, fl (a + b)) acc l.
Proof. revert i acc. induction l as [|x l IH]; intros i acc; simpl; [done|apply IH]. Qed.

Lemma reduce_from_squares i acc (l : list Qc) :
  reduce_from (λ a x _, fl (a + fl (x * x))) i acc l
  = foldl (λ a b, fl (a + b)) acc (products fl l l).
Proof. revert i acc. induction l as [|x l IH]; intros i acc; simpl; [done|apply IH]. Qed.

Lemma reduce_from_products (y : list Qc) i acc (x : list Qc) :
  (i + length x ≤ length y)%nat →
  reduce_from (λ a xi i, fl (a + fl (xi * default 0 (y !! i)))) i acc x
  = foldl (λ a b, fl (a + b)) acc (products fl x (drop i y)).
Proof.
  revert i acc. induction x as [|xi x IH]; intros i acc Hlen; [done|].
  simpl in Hlen. destruct (lookup_lt_is_Some_2 y i) as [yi Hyi]; [lia|].
  cbn [reduce_from]. rewrite IH by lia.
  by rewrite Hyi, (drop_S y yi i Hyi).
Qed.

(** On two series of the same length, not empty, the function computes
    the formula. *)
Lemma calculateCorrelation_pearson (x y : list Qc) :
  length x = length y → x ≠ [] →
  calculateCorrelation fl Math_sqrt x y = pearson_r fl Math_sqrt x y.
Proof.
  intros Hlen Hx. destruct x as [|x0 x]; [done|].
  unfold calculateCorrelation, pearson_r.
  rewrite <-Hlen, Nat.eqb_refl. simpl negb. rewrite orb_false_r.
  cbn [length Nat.eqb]. unfold reduce.
  rewrite !reduce_from_sum, !reduce_from_squares.
  rewrite reduce_from_products by (rewrite <-Hlen; simpl; lia).
  rewrite drop_0. unfold spread, covariance, sigma.
  by rewrite <-Hlen.
Qed.

Lemma calculateCorrelation_guard (x y : list Qc) :
  length x ≠ length y ∨ x = [] → calculateCorrelation fl Math_sqrt x y = Fin 0.
Proof.
  intros Hguard. unfold calculateCorrelation.
  destruct (length x =? 0)%nat eqn:H0; [done|].
  destruct (length x =? length y)%nat eqn:Hxy; [|done].
  apply Nat.eqb_eq in Hxy. apply Nat.eqb_neq in H0.
  destruct Hguard as [?| ->]; done.
Qed.

(** The filter of [getStats] keeps the weeks whose price average exists
    and is positive. *)
Lemma dataWithPrice_weeks db ph :
  dataWithPrice AVG db ph = weeks_with_positive_price AVG db ph.
Proof.
  unfold dataWithPrice, weeks_with_positive_price.
  apply filter_ext_Forall, Forall_forall. intros w _.
  unfold has_price, positive_price.
  destruct (avg_price w) as [p|]; [|done].
  split; [by intros H%Is_true_true%Qc_ltb_lt|by intros H%Qc_ltb_lt%Is_true_true].
Qed.

Lemma prices_of_vector db ph :
  prices_of AVG db ph = positive_price_vector AVG db ph.
Proof.
  unfold prices_of, positive_price_vector.
  rewrite dataWithPrice_weeks. unfold weeks_with_positive_price.
  induction (getWeeklyStats AVG db ph) as [|w l IH]; [done|].
  rewrite filter_cons. destruct (decide (positive_price w)) as [Hp|Hn]; [|done].
  rewrite fmap_cons, IH. simpl. unfold positive_price in Hp.
  by destruct (avg_price w).
Qed.

Lemma users_of_vector db ph :
  users_of AVG db ph = positive_users_vector AVG db ph.
Proof. unfold users_of, positive_users_vector. by rewrite dataWithPrice_weeks. Qed.

(** C4, as the code has it: the correlation of [getStats] is taken over
    exactly the weeks whose price average exists and is positive, in the
    order of the weeks; it is 0 when there is no such week, and otherwise
    Pearson's r = (n Σxy − Σx Σy) / sqrt((n Σx² − (Σx)²)(n Σy² − (Σy)²)) of
    the weekly price averages and the weekly users as the run time computes
    it, each operation rounded to a double, with 0 in place of the quotient
    when the computed denominator is 0; and the response carries it printed
    with three decimals. *)
Theorem correlation_is_pearson_over_priced_weeks
    (db : weekly_stats.table) (ph : price_history.table) :
  correlation fl AVG Math_sqrt db ph
  = (if decide (positive_price_vector AVG db ph = []) then Fin 0
     else pearson_r fl Math_sqrt (positive_price_vector AVG db ph)
                                 (positive_users_vector AVG db ph))
  ∧ ∀ resp, getStats fl AVG Math_sqrt db ph = Ok resp →
            priceUserCorrelation (correlations (insights resp))
            = toFixed 3 (correlation fl AVG Math_sqrt db ph).
Proof.
  split.
  - unfold correlation. rewrite prices_of_vector, users_of_vector.
    destruct (decide (positive_price_vector AVG db ph = [])) as [Hnil|Hne].
    + apply calculateCorrelation_guard. by right.
    + apply calculateCorrelation_pearson; [|done].
      unfold positive_price_vector, positive_users_vector.
      rewrite length_fmap. apply omap_avg_price_length, Forall_forall.
      by intros w [Hw _]%list_elem_of_filter.
  - by intros resp (_ & _ & _ & _ & _ & _ & _ & _ & _ & _ & -> & _)%getStats_Ok.
Qed.

End Correlation.

(** Two weeks with weekly price averages 2 and 5 and with 10 and 20 users:
    r = 1. *)
Lemma correlation_is_pearson_witness :
  ∃ resp,
    getStats Binary64.round Binary64.avg Samples.sqrt_on_squares
      Samples.two_weeks Samples.three_prices = Ok resp
    ∧ priceUserCorrelation (correlations (insights resp)) = Fin (of_Z 1).
Proof.
  eexists. split; [reflexivity|].
  match goal with
  | |- context [insights ?r] =>
      rewrite (proj2 (correlation_is_pearson_over_priced_weeks
                        Binary64.round Binary64.avg Samples.sqrt_on_squares
                        Samples.two_weeks Samples.three_prices) r eq_refl)
  end.
  by_double_evaluation.
Defined.

(** C4 as stated fails twice.  On two weeks of which the second has a
    price average of zero, the code leaves that week out, although its
    average exists, and returns 0 where Pearson's r over both weeks is -1.
    On six weeks with the same price of 0.3, a vector without variance, the
    factor n Σx² − (Σx)² is not 0 in doubles but a small negative number,
    the root is [NaN], the test [denominator === 0] fails, and the
    correlation is [NaN]. *)
Lemma correlation_as_specified_fails :
  ¬ correlation_as_specified Binary64.round Binary64.avg Samples.sqrt_on_squares
      Samples.two_weeks Samples.one_price_and_zero
  ∧ ¬ correlation_as_specified Binary64.round Binary64.avg Samples.sqrt_on_squares
        Samples.six_weeks Samples.flat_prices.
Proof.
  split.
  - intros [H _]. vm_compute in H. discriminate H.
  - intros [_ H].
    assert (Hflat : constant (price_vector Binary64.avg
                                Samples.six_weeks Samples.flat_prices)).
    { exists (Samples.real (3 # 10)).
      apply (bool_decide_unpack _). vm_compute. exact I. }
    specialize (H (or_introl Hflat)). vm_compute in H. discriminate H.
Qed.

(** What the response carries for the six weeks at 0.3, and what the
    route serves. *)
Example correlation_of_flat_prices :
  ∃ resp,
    getStats Binary64.round Binary64.avg Samples.sqrt_on_squares
      Samples.six_weeks Samples.flat_prices = Ok resp
    ∧ priceUserCorrelation (correlations (insights resp)) = NaN
    ∧ description (correlations (insights resp)) = "No significant correlation"%string
    ∧ Api.priceUserCorrelation (Api.insights (Api.Response_json resp)) = None.
Proof. eexists. split; [reflexivity|]. by vm_compute. Qed.

(** The scenarios of the specification. *)
Example correlation_co_increasing :
  calculateCorrelation Binary64.round Samples.sqrt_on_squares
    (of_Z <$> [1; 2; 3; 4]%Z) (of_Z <$> [10; 20; 30; 40]%Z)
  = Fin (of_Z 1).
Proof. by_double_evaluation. Qed.

Example correlation_constant_prices :
  calculateCorrelation Binary64.round Samples.sqrt_on_squares
    (of_Z <$> [5; 5; 5; 5]%Z) (of_Z <$> [10; 20; 30; 40]%Z)
  = Fin (of_Z 0).
Proof. by_double_evaluation. Qed.

End ServerFacts.

(** ** The price table *)

Module FetchPriceFacts.

Import FetchPrice.
Local Open Scope Qc_scope.

Lemma fetchDailyHistory_positive data :
  Forall (λ p, 0 < p.2) (fetchDailyHistory data).
Proof.
  unfold fetchDailyHistory. apply Forall_fmap, Forall_forall.
  intros d [Hd _]%list_elem_of_filter. simpl.
  by apply bool_decide_unpack in Hd.
Qed.

Lemma insert_run_positive now db coin p :
  positive_prices db → 0 < p.2 → positive_prices (insert_run now db coin p).
Proof.
  intros Hdb Hp. unfold insert_run, positive_prices.
  apply Forall_app. split; [|by constructor].
  apply Forall_forall. intros r [_ Hr]%list_elem_of_filter.
  by eapply Forall_forall in Hdb.
Qed.

Lemma insertMany_positive clock i db coin prices :
  positive_prices db → Forall (λ p, 0 < p.2) prices →
  positive_prices (insertMany clock i db coin prices).
Proof.
  intros Hdb Hprices. revert i db Hdb.
  induction Hprices as [|p prices Hp _ IH]; intros i db Hdb; [done|].
  simpl. by apply IH, insert_run_positive.
Qed.

(** Every table that [savePrices] fills from [fetchDailyHistory] holds
    positive prices only. *)
Lemma savePrices_positive clock db coin data :
  positive_prices db →
  positive_prices (savePrices clock db coin (fetchDailyHistory data)).
Proof.
  intros Hdb. by apply insertMany_positive, fetchDailyHistory_positive.
Qed.

End FetchPriceFacts.

(** * Further properties of the code *)

(** ** Sums over groups, strict order *)

Section MoreRelationalFacts.

Lemma sum_of_cons {A} (f : A → Z) a l : sum_of f (a :: l) = f a + sum_of f l.
Proof. done. Qed.

Lemma sum_of_fmap {A B} (h : B → A) (f : A → Z) (l : list B) :
  sum_of f (h <$> l) = sum_of (λ b, f (h b)) l.
Proof.
  unfold sum_of. induction l as [|b l IH]; [done|].
  rewrite fmap_cons. simpl. by rewrite IH.
Qed.

Lemma sum_of_ext {A} (f g : A → Z) l :
  Forall (λ a, f a = g a) l → sum_of f l = sum_of g l.
Proof. induction 1 as [|a l Ha _ IH]; simpl; [done|]. by rewrite Ha, IH. Qed.

Lemma sum_of_perm {A} (f : A → Z) l1 l2 : l1 ≡ₚ l2 → sum_of f l1 = sum_of f l2.
Proof. induction 1; simpl; lia. Qed.

Lemma sum_of_zero {A} (l : list A) : sum_of (λ _, 0) l = 0.
Proof. induction l; simpl; lia. Qed.

Lemma sum_of_one {A} (l : list A) : sum_of (λ _, 1) l = Z.of_nat (length l).
Proof. induction l; simpl; lia. Qed.

Lemma sum_of_filter_cons {A} `{EqDecision K} (key : A → K) (f : A → Z) a l k :
  sum_of f (filter (λ x, key x = k) (a :: l))
  = (if decide (key a = k) then f a else 0)
    + sum_of f (filter (λ x, key x = k) l).
Proof. rewrite filter_cons. by destruct (decide (key a = k)). Qed.

Lemma sum_of_indicator `{EqDecision K} (c : K) (v : Z) (ks : list K) :
  NoDup ks → c ∈ ks → sum_of (λ k, if decide (c = k) then v else 0) ks = v.
Proof.
  induction 1 as [|k ks Hk Hnd IH]; [by intros ?%elem_of_nil|].
  rewrite sum_of_cons. intros [->|Hc]%elem_of_cons.
  - rewrite decide_True by done.
    rewrite (sum_of_ext _ (λ _, 0)), sum_of_zero; [lia|].
    apply Forall_forall. intros k' Hk'. rewrite decide_False; [done|].
    by intros ->.
  - rewrite decide_False by (by intros ->). rewrite IH by done. lia.
Qed.

Lemma sum_of_groups {A} `{EqDecision K} (key : A → K) (f : A → Z) l (ks : list K) :
  NoDup ks → Forall (λ a, key a ∈ ks) l →
  sum_of (λ k, sum_of f (filter (λ x, key x = k) l)) ks = sum_of f l.
Proof.
  intros Hnd. induction 1 as [|a l Ha _ IH].
  - apply sum_of_zero.
  - rewrite sum_of_cons, <-IH.
    rewrite (sum_of_ext _ (λ k, (if decide (key a = k) then f a else 0)
                                + sum_of f (filter (λ x, key x = k) l))).
    + by rewrite sum_of_plus, sum_of_indicator.
    + apply Forall_forall. intros k _. apply sum_of_filter_cons.
Qed.

(** [GROUP BY] loses no row: a sum over the groups of the sums within the
    groups is the sum over the rows. *)
Lemma sum_of_group_by {A} `{EqDecision K} (key : A → K) (f : A → Z) l :
  sum_of (λ kg, sum_of f kg.2) (group_by key l) = sum_of f l.
Proof.
  unfold group_by. rewrite sum_of_fmap.
  apply (sum_of_groups key f l); [apply NoDup_remove_dups|].
  apply Forall_forall. intros a Ha.
  by apply elem_of_remove_dups, list_elem_of_fmap_2.
Qed.

(** A sorted list without two equal keys is strictly sorted. *)
Lemma StronglySorted_strict {A K} (key : A → K) (R : K → K → Prop) l :
  StronglySorted (λ a b, R (key a) (key b)) l →
  NoDup (key <$> l) →
  StronglySorted (λ a b, R (key a) (key b) ∧ key a ≠ key b) l.
Proof.
  induction 1 as [|a l Hl IH Ha]; [constructor|].
  rewrite fmap_cons, NoDup_cons. intros [Hnotin Hnd].
  constructor; [by apply IH|].
  apply Forall_forall. intros b Hb. split.
  - by eapply Forall_forall in Ha.
  - intros Heq. apply Hnotin. rewrite Heq. by apply list_elem_of_fmap_2.
Qed.

Lemma StronglySorted_app_between {A} (R : A → A → Prop) l1 l2 :
  StronglySorted R l1 → StronglySorted R l2 →
  (∀ a b, a ∈ l1 → b ∈ l2 → R a b) →
  StronglySorted R (l1 ++ l2).
Proof.
  intros H1 H2 H12. apply StronglySorted_app. repeat split; try done.
Qed.

End MoreRelationalFacts.

(** ** More on the yearly aggregation and the keyed write *)

Module MoreFetchFacts.

Import Fetch FetchFacts FetchMain.

Section Query.
Variable datepart_week : Date.t → Z.

Lemma sum_of_pairs {A K} (f : A → Z) (l : list (K * list A)) :
  sum_of (λ '(k, g), sum_of f g) l = sum_of (λ kg, sum_of f kg.2) l.
Proof. apply sum_of_ext, Forall_forall. by intros [k g] _. Qed.

Lemma sum_of_post_rows Comments yr :
  sum_of UserWeeklyActivity.post_count (post_rows datepart_week Comments yr)
  = Z.of_nat (length (filter (λ c, is_post c && in_year yr c) Comments))
  ∧ sum_of UserWeeklyActivity.comment_count (post_rows datepart_week Comments yr) = 0.
Proof.
  unfold post_rows. rewrite !sum_of_fmap. split.
  - rewrite <-sum_of_one, <-(sum_of_group_by (activity_key datepart_week)).
    apply sum_of_ext, Forall_forall. intros [k g] _. simpl.
    by rewrite sum_of_one.
  - rewrite (sum_of_ext _ (λ _, 0)); [apply sum_of_zero|].
    apply Forall_forall. by intros [k g] _.
Qed.

Lemma sum_of_comment_rows Comments yr :
  sum_of UserWeeklyActivity.comment_count (comment_rows datepart_week Comments yr)
  = Z.of_nat (length (filter (λ c, negb (is_post c) && in_year yr c) Comments))
  ∧ sum_of UserWeeklyActivity.post_count (comment_rows datepart_week Comments yr) = 0.
Proof.
  unfold comment_rows. rewrite !sum_of_fmap. split.
  - rewrite <-sum_of_one, <-(sum_of_group_by (activity_key datepart_week)).
    apply sum_of_ext, Forall_forall. intros [k g] _. simpl.
    by rewrite sum_of_one.
  - rewrite (sum_of_ext _ (λ _, 0)); [apply sum_of_zero|].
    apply Forall_forall. by intros [k g] _.
Qed.

Lemma sum_of_totals (f : UserWeeklyActivity.row → Z)
    (proj : UserWeeklyTotals.row → Z) Comments yr :
  (∀ k g, proj (UserWeeklyTotals.mk k.1.1 k.1.2 k.2
                  (sum_of UserWeeklyActivity.post_count g)
                  (sum_of UserWeeklyActivity.comment_count g)
                  (sum_of UserWeeklyActivity.post_count g
                   + sum_of UserWeeklyActivity.comment_count g))
          = sum_of f g) →
  sum_of proj (UserWeeklyTotals_cte datepart_week Comments yr)
  = sum_of f (UserWeeklyActivity_cte datepart_week Comments yr).
Proof.
  intros Hproj. unfold UserWeeklyTotals_cte. rewrite sum_of_fmap.
  rewrite <-(sum_of_group_by UserWeeklyActivity.key f).
  apply sum_of_ext, Forall_forall. intros [k g] _. apply Hproj.
Qed.

Lemma sum_of_rows (f : UserWeeklyTotals.row → Z) (proj : WeeklyStats → Z)
    Comments yr :
  (∀ k g, proj (aggregate k g) = sum_of f g) →
  sum_of proj (fetchWeeklyStats datepart_week Comments yr)
  = sum_of f (UserWeeklyTotals_cte datepart_week Comments yr).
Proof.
  intros Hproj. unfold fetchWeeklyStats.
  rewrite (sum_of_perm _ _ _ (order_by_perm _ _)), sum_of_fmap.
  rewrite <-(sum_of_group_by UserWeeklyTotals.key f).
  apply sum_of_ext, Forall_forall. intros [k g] _. apply Hproj.
Qed.

(** X1: the aggregation of a year loses and invents no action: over the
    rows it returns, [total_posts] adds up to the number of posts of
    [Comments] in the year's range and [total_comments] to the number of
    comments in it. *)
Theorem aggregation_conserves_actions (Comments : list Comment) (yr : Z) :
  sum_of total_posts (fetchWeeklyStats datepart_week Comments yr)
  = Z.of_nat (length (filter (λ c, is_post c && in_year yr c) Comments))
  ∧ sum_of total_comments (fetchWeeklyStats datepart_week Comments yr)
    = Z.of_nat (length (filter (λ c, negb (is_post c) && in_year yr c) Comments)).
Proof.
  destruct (sum_of_post_rows Comments yr) as [Hpp Hpc].
  destruct (sum_of_comment_rows Comments yr) as [Hcc Hcp].
  split.
  - rewrite (sum_of_rows UserWeeklyTotals.posts) by done.
    rewrite (sum_of_totals UserWeeklyActivity.post_count) by done.
    unfold UserWeeklyActivity_cte. rewrite sum_of_app, Hpp, Hcp. lia.
  - rewrite (sum_of_rows UserWeeklyTotals.comments) by done.
    rewrite (sum_of_totals UserWeeklyActivity.comment_count) by done.
    unfold UserWeeklyActivity_cte. rewrite sum_of_app, Hpc, Hcc. lia.
Qed.

Lemma fetchWeeklyStats_sorted (Comments : list Comment) (yr : Z) :
  StronglySorted (λ a b, key_lt (stats_key a) (stats_key b))
    (fetchWeeklyStats datepart_week Comments yr).
Proof.
  apply (StronglySorted_strict stats_key (λ a b, key_leb a b)).
  - unfold fetchWeeklyStats. apply order_by_sorted.
    + intros a b. apply ServerFacts.key_leb_total.
    + intros a b c. apply ServerFacts.key_leb_trans.
  - apply fetchWeeklyStats_keys_NoDup.
Qed.

(** X2: the rows of a year come in strictly ascending order of
    (year, week): sorted, and no key twice. *)
Theorem rows_strictly_ascending (Comments : list Comment) (yr : Z) :
  StronglySorted (λ a b, key_lt (stats_key a) (stats_key b))
    (fetchWeeklyStats datepart_week Comments yr).
Proof. apply fetchWeeklyStats_sorted. Qed.

(** The query reads the posts and comments of the fetched year only:
    what lies outside [[year-01-01, (year+1)-01-01)] changes no row. *)
Lemma aggregation_reads_the_year_only (Comments : list Comment) (yr : Z) :
  fetchWeeklyStats datepart_week Comments yr
  = fetchWeeklyStats datepart_week (filter (λ c, in_year yr c) Comments) yr.
Proof.
  unfold fetchWeeklyStats, UserWeeklyTotals_cte, UserWeeklyActivity_cte,
    post_rows, comment_rows.
  rewrite !list_filter_filter_l; [done| |]; by intros c [_ ?]%andb_True.
Qed.

Lemma in_year_year yr c :
  calendar_date (created c) → in_year yr c → Date.year (created c) = yr.
Proof.
  unfold calendar_date, in_year, Date.leb, Date.ltb, Date.first_of_year. simpl.
  intros [Hm Hd].
  repeat match goal with
  | |- context [(?a <? ?b)] => destruct (Z.ltb_spec a b)
  | |- context [(?a =? ?b)] => destruct (Z.eqb_spec a b)
  end; simpl; intros ?; try done; lia.
Qed.

Lemma fetchWeeklyStats_year (Comments : list Comment) (yr : Z) :
  Forall (λ c, calendar_date (created c)) Comments →
  Forall (λ s, year s = yr) (fetchWeeklyStats datepart_week Comments yr).
Proof.
  intros Hdates. unfold fetchWeeklyStats.
  rewrite order_by_Forall, Forall_fmap. apply Forall_forall.
  intros [k g] Hg. unfold compose. simpl.
  destruct (week_group datepart_week Comments yr k g Hg) as (Hne & _ & _ & Hauthors).
  destruct g as [|u g]; [done|].
  destruct (proj1 (Hauthors (UserWeeklyTotals.author u))) as (c & Hc & Hin & Hkey).
  { rewrite fmap_cons. left. }
  unfold activity_key in Hkey. injection Hkey as _ <- _.
  apply in_year_year; [|done]. by eapply Forall_forall in Hdates.
Qed.

(** X3: when the dates of [Comments] are calendar dates, every row that the
    aggregation of a year returns carries that year. *)
Theorem rows_carry_the_fetched_year (Comments : list Comment) (yr : Z) :
  Forall (λ c, calendar_date (created c)) Comments →
  Forall (λ s, year s = yr) (fetchWeeklyStats datepart_week Comments yr).
Proof. apply fetchWeeklyStats_year. Qed.

End Query.

Lemma rows_carry_the_fetched_year_witness :
  Forall (λ s, year s = 2021)
    (fetchWeeklyStats Samples.datepart_week_us Samples.comments_2021 2021).
Proof.
  apply (rows_carry_the_fetched_year
           Samples.datepart_week_us Samples.comments_2021 2021).
  apply (bool_decide_unpack _). vm_compute. reflexivity.
Defined.

(** *** Looking up what was saved *)

Lemma of_row_rows_with_key k (db : weekly_stats.table) :
  of_row <$> rows_with_key k db = filter (λ x, stats_key x = k) (of_row <$> db).
Proof.
  unfold rows_with_key. induction db as [|r db IH]; [done|].
  rewrite fmap_cons, !filter_cons, key_of_row.
  destruct (decide (weekly_stats.key r = k)); by rewrite ?fmap_cons, IH.
Qed.

Lemma last_writes_other k stats :
  k ∉ stats_key <$> stats → filter (λ x, stats_key x = k) (last_writes stats) = [].
Proof.
  intros Hk. apply filter_none, Forall_forall.
  intros s Hs%last_writes_subset Heq. apply Hk. rewrite <-Heq.
  by apply list_elem_of_fmap_2.
Qed.

Lemma last_writes_lookup pre s post :
  stats_key s ∉ stats_key <$> post →
  filter (λ x, stats_key x = stats_key s) (last_writes (pre ++ s :: post)) = [s].
Proof.
  intros Hs. induction pre as [|x pre IH]; simpl.
  - rewrite decide_False by done. simpl.
    rewrite filter_cons_True by done. by rewrite last_writes_other.
  - rewrite filter_app, IH.
    destruct (decide (stats_key x ∈ stats_key <$> pre ++ s :: post)) as [|Hx]; [done|].
    rewrite filter_cons_False, filter_nil; [done|].
    intros Heq. apply Hx. rewrite Heq, fmap_app, fmap_cons.
    apply elem_of_app. right. left.
Qed.

Lemma rows_with_key_saved clock (db : weekly_stats.table) pre s post :
  stats_key s ∉ stats_key <$> post →
  of_row <$> rows_with_key (stats_key s)
               (saveToDatabase clock db (pre ++ s :: post)) = [s].
Proof.
  intros Hs. unfold saveToDatabase.
  rewrite of_row_rows_with_key, of_row_insertMany, filter_app.
  rewrite last_writes_lookup by done.
  rewrite filter_none; [done|]. apply Forall_forall.
  intros x [Hx _]%list_elem_of_filter Heq. apply Hx. rewrite Heq.
  rewrite fmap_app, fmap_cons. apply elem_of_app. right. left.
Qed.

Lemma rows_with_key_other clock (db : weekly_stats.table) stats k :
  k ∉ stats_key <$> stats →
  of_row <$> rows_with_key k (saveToDatabase clock db stats)
  = of_row <$> rows_with_key k db.
Proof.
  intros Hk. unfold saveToDatabase.
  rewrite !of_row_rows_with_key, of_row_insertMany, filter_app.
  rewrite last_writes_other, app_nil_r by done.
  apply list_filter_filter_l. by intros x ->.
Qed.

(** X4: after [saveToDatabase], the table holds under the key of a saved
    row exactly one row, with the columns that the batch wrote last for
    that key; and what it holds under a key outside the batch is what it
    held before. *)
Theorem lookup_after_save (clock : nat → string) (db : weekly_stats.table)
    (pre post : list WeeklyStats) (s : WeeklyStats) (k : Z * Z) :
  stats_key s ∉ stats_key <$> post →
  k ∉ stats_key <$> pre ++ s :: post →
  of_row <$> rows_with_key (stats_key s)
               (saveToDatabase clock db (pre ++ s :: post)) = [s]
  ∧ of_row <$> rows_with_key k (saveToDatabase clock db (pre ++ s :: post))
    = of_row <$> rows_with_key k db.
Proof.
  intros Hs Hk. split; [by apply rows_with_key_saved|by apply rows_with_key_other].
Qed.

Lemma lookup_after_save_witness :
  of_row <$> rows_with_key (2021, 1)
               (saveToDatabase Samples.at_noon Samples.three_weeks
                  [Samples.stats_week 2021 1 (Date.mk 2021 1 1) 7;
                   Samples.stats_week 2021 1 (Date.mk 2021 1 1) 9])
  = [Samples.stats_week 2021 1 (Date.mk 2021 1 1) 9]
  ∧ of_row <$> rows_with_key (2021, 2)
                 (saveToDatabase Samples.at_noon Samples.three_weeks
                    [Samples.stats_week 2021 1 (Date.mk 2021 1 1) 7;
                     Samples.stats_week 2021 1 (Date.mk 2021 1 1) 9])
    = of_row <$> rows_with_key (2021, 2) Samples.three_weeks.
Proof.
  apply (lookup_after_save Samples.at_noon Samples.three_weeks
           [Samples.stats_week 2021 1 (Date.mk 2021 1 1) 7] []
           (Samples.stats_week 2021 1 (Date.mk 2021 1 1) 9) (2021, 2)).
  - apply not_elem_of_nil.
  - apply (bool_decide_unpack _). vm_compute. reflexivity.
Defined.

(** X5: [saveToDatabase] keeps the primary key of [weekly_stats]: a table
    with at most one row per (year, week) has at most one row per
    (year, week) after any batch. *)
Theorem save_keeps_primary_key (clock : nat → string) (db : weekly_stats.table)
    (stats : list WeeklyStats) :
  weekly_stats.pk_unique db →
  weekly_stats.pk_unique (saveToDatabase clock db stats).
Proof. apply saveToDatabase_pk_unique. Qed.

Lemma save_keeps_primary_key_witness :
  weekly_stats.pk_unique
    (saveToDatabase Samples.at_noon Samples.three_weeks
       [Samples.stats_week 2021 1 (Date.mk 2021 1 1) 7;
        Samples.stats_week 2021 1 (Date.mk 2021 1 1) 9]).
Proof.
  apply (save_keeps_primary_key Samples.at_noon Samples.three_weeks).
  apply (bool_decide_unpack _). vm_compute. reflexivity.
Defined.

(** *** The loop over the years *)

Lemma StronglySorted_fmap_inv {A B} (f : A → B) (R : B → B → Prop) (l : list A) :
  StronglySorted R (f <$> l) → StronglySorted (λ a b, R (f a) (f b)) l.
Proof.
  induction l as [|a l IH]; [constructor|].
  rewrite fmap_cons. intros [Ha Hl]%StronglySorted_cons.
  constructor; [by apply IH|]. rewrite Forall_fmap in Ha.
  eapply Forall_impl; [exact Ha|]. by intros b.
Qed.

Section Loop.
Variable datepart_week : Date.t → Z.

Lemma main_loop_pk_unique clock Comments (db : weekly_stats.table) y n :
  weekly_stats.pk_unique db →
  weekly_stats.pk_unique (main_loop datepart_week clock Comments db y n).
Proof.
  revert db y. induction n as [|n IH]; intros db y Hdb; [done|].
  simpl. apply IH. destruct (0 <? _)%nat; [|done].
  by apply saveToDatabase_pk_unique.
Qed.

(** On a table whose rows all lie before year [y], a pass of the loop from
    [y] on appends the rows of the years, one year after the other. *)
Lemma main_loop_columns clock Comments (db : weekly_stats.table) y n :
  Forall (λ c, calendar_date (created c)) Comments →
  Forall (λ s, year s < y) (of_row <$> db) →
  of_row <$> main_loop datepart_week clock Comments db y n
  = (of_row <$> db) ++ rows_of_years datepart_week Comments y n.
Proof.
  intros Hdates. revert db y. induction n as [|n IH]; intros db y Hdb.
  - simpl. by rewrite app_nil_r.
  - cbn [main_loop rows_of_years].
    pose proof (fetchWeeklyStats_year datepart_week Comments y Hdates) as Hyear.
    set (stats := fetchWeeklyStats datepart_week Comments y) in *.
    assert (Hsave : of_row <$> (if (0 <? length stats)%nat
                               then saveToDatabase (clock y) db stats else db)
                    = (of_row <$> db) ++ stats).
    { destruct stats as [|s0 stats'] eqn:Hstats; [by rewrite app_nil_r|].
      rewrite <-Hstats in *. replace (0 <? length stats)%nat with true
        by (by rewrite Hstats).
      unfold saveToDatabase. rewrite of_row_insertMany. f_equal.
      - apply filter_all, Forall_forall. intros x Hx Hin.
        apply list_elem_of_fmap in Hin as (s & Hk & Hs).
        eapply Forall_forall in Hdb; [|exact Hx].
        eapply Forall_forall in Hyear; [|exact Hs].
        apply (f_equal fst) in Hk. simpl in Hk. lia.
      - apply last_writes_NoDup. subst stats.
        apply fetchWeeklyStats_keys_NoDup. }
    rewrite IH.
    + by rewrite Hsave, <-app_assoc.
    + rewrite Hsave. apply Forall_app. split.
      * eapply Forall_impl; [exact Hdb|]. intros s. simpl. lia.
      * eapply Forall_impl; [exact Hyear|]. intros s. simpl. lia.
Qed.

Lemma rows_of_years_year Comments y n :
  Forall (λ c, calendar_date (created c)) Comments →
  Forall (λ s, y <= year s) (rows_of_years datepart_week Comments y n).
Proof.
  intros Hdates. revert y. induction n as [|n IH]; intros y; [constructor|].
  simpl. apply Forall_app. split.
  - eapply Forall_impl; [by apply fetchWeeklyStats_year|]. intros s. simpl. lia.
  - eapply Forall_impl; [apply IH|]. intros s. simpl. lia.
Qed.

Lemma rows_of_years_sorted Comments y n :
  Forall (λ c, calendar_date (created c)) Comments →
  StronglySorted (λ a b, key_lt (stats_key a) (stats_key b))
    (rows_of_years datepart_week Comments y n).
Proof.
  intros Hdates. revert y. induction n as [|n IH]; intros y; [constructor|].
  simpl. apply StronglySorted_app_between; [apply fetchWeeklyStats_sorted|apply IH|].
  intros a b Ha Hb.
  pose proof (fetchWeeklyStats_year datepart_week Comments y Hdates) as Hy.
  pose proof (rows_of_years_year Comments (y + 1) n Hdates) as Hy'.
  eapply Forall_forall in Hy; [|exact Ha].
  eapply Forall_forall in Hy'; [|exact Hb].
  simpl in Hy, Hy'. unfold key_lt, stats_key. split.
  - apply ServerFacts.key_leb_spec. simpl. lia.
  - intros [= ? _]. lia.
Qed.

Lemma main_sorted clock Comments endYear :
  Forall (λ c, calendar_date (created c)) Comments →
  of_row <$> main datepart_week clock Comments [] endYear
  = rows_of_years datepart_week Comments startYear
      (Z.to_nat (endYear - startYear + 1))
  ∧ StronglySorted
      (λ a b, key_lt (weekly_stats.key a) (weekly_stats.key b))
      (main datepart_week clock Comments [] endYear).
Proof.
  intros Hdates. unfold main.
  pose proof (main_loop_columns clock Comments [] startYear
                (Z.to_nat (endYear - startYear + 1)) Hdates) as Hcols.
  rewrite fmap_nil, app_nil_l in Hcols. specialize (Hcols (Forall_nil_2 _)).
  split; [done|].
  apply (StronglySorted_fmap_inv of_row
           (λ a b, key_lt (stats_key a) (stats_key b))).
  rewrite Hcols. by apply rows_of_years_sorted.
Qed.

(** X6: [main] on an empty database, reading calendar dates, leaves the
    table with the rows of the years from 2016 to the current year, year
    after year, in strictly ascending order of (year, week) along the
    rowids. *)
Theorem backfill_is_in_key_order (clock : Z → nat → string)
    (Comments : list Comment) (endYear : Z) :
  Forall (λ c, calendar_date (created c)) Comments →
  of_row <$> main datepart_week clock Comments [] endYear
  = rows_of_years datepart_week Comments startYear
      (Z.to_nat (endYear - startYear + 1))
  ∧ StronglySorted
      (λ a b, key_lt (weekly_stats.key a) (weekly_stats.key b))
      (main datepart_week clock Comments [] endYear).
Proof. apply main_sorted. Qed.

(** X7: [main] keeps the primary key of [weekly_stats], whatever the table
    held and whatever HiveSQL returns. *)
Theorem main_keeps_primary_key (clock : Z → nat → string)
    (Comments : list Comment) (db : weekly_stats.table) (endYear : Z) :
  weekly_stats.pk_unique db →
  weekly_stats.pk_unique (main datepart_week clock Comments db endYear).
Proof. apply main_loop_pk_unique. Qed.

End Loop.

Lemma backfill_is_in_key_order_witness :
  of_row <$> main Samples.datepart_week_us (λ _, Samples.at_noon)
               Samples.comments_2021 [] 2021
  = rows_of_years Samples.datepart_week_us Samples.comments_2021 startYear 6
  ∧ StronglySorted
      (λ a b, key_lt (weekly_stats.key a) (weekly_stats.key b))
      (main Samples.datepart_week_us (λ _, Samples.at_noon)
         Samples.comments_2021 [] 2021).
Proof.
  apply (backfill_is_in_key_order Samples.datepart_week_us
           (λ _, Samples.at_noon) Samples.comments_2021 2021).
  apply (bool_decide_unpack _). vm_compute. reflexivity.
Defined.

Lemma main_keeps_primary_key_witness :
  weekly_stats.pk_unique
    (main Samples.datepart_week_us (λ _, Samples.at_noon)
       Samples.comments_2021 Samples.three_weeks 2021).
Proof.
  apply (main_keeps_primary_key Samples.datepart_week_us
           (λ _, Samples.at_noon) Samples.comments_2021 Samples.three_weeks 2021).
  apply (bool_decide_unpack _). vm_compute. reflexivity.
Defined.

End MoreFetchFacts.

(** ** More on the price table *)

Module MorePriceFacts.

Import FetchPrice FetchPriceFacts PriceMain.
Local Open Scope Qc_scope.

Lemma columns_insert_run now (db : price_history.table) coin p :
  columns <$> insert_run now db coin p
  = filter (λ x, x.1.1 ≠ p.1) (columns <$> db) ++ [written coin p].
Proof.
  unfold insert_run. rewrite fmap_app, list_fmap_singleton. f_equal.
  induction db as [|r db IH]; [done|].
  rewrite fmap_cons, !filter_cons. simpl.
  destruct (decide (price_history.date r ≠ p.1)); by rewrite ?fmap_cons, IH.
Qed.

(** The columns of the table after a batch: the old rows whose date the
    batch does not write, then the batch's last price of each date, under
    the batch's coin. *)
Lemma columns_insertMany clock i (db : price_history.table) coin prices :
  columns <$> insertMany clock i db coin prices
  = filter (λ x, x.1.1 ∉ fst <$> prices) (columns <$> db)
    ++ (written coin <$> last_prices prices).
Proof.
  revert i db. induction prices as [|p rest IH]; intros i db; simpl.
  - rewrite app_nil_r. symmetry. apply filter_all, Forall_forall.
    intros x _. apply not_elem_of_nil.
  - rewrite IH, columns_insert_run, filter_app, list_filter_filter, fmap_app,
      <-app_assoc.
    f_equal; [|f_equal].
    + apply list_filter_iff. intros x. rewrite not_elem_of_cons. tauto.
    + rewrite filter_singleton; [|exact []]. simpl.
      destruct (decide (p.1 ∈ fst <$> rest));
        [by rewrite decide_False by tauto|by rewrite decide_True].
Qed.

Lemma last_prices_subset prices p : p ∈ last_prices prices → p ∈ prices.
Proof.
  induction prices as [|x rest IH]; simpl; [done|].
  rewrite elem_of_app, elem_of_cons. intros [Hp|Hp]; [|by right; apply IH].
  destruct (decide _); [by apply elem_of_nil in Hp|].
  apply list_elem_of_singleton in Hp. by left.
Qed.

Lemma last_prices_other d coin prices :
  d ∉ fst <$> prices →
  filter (λ x, x.1.1 = d) (written coin <$> last_prices prices) = [].
Proof.
  intros Hd. apply filter_none, Forall_forall.
  intros x (p & -> & Hp%last_prices_subset)%list_elem_of_fmap Heq.
  apply Hd. simpl in Heq. rewrite <-Heq. by apply list_elem_of_fmap_2.
Qed.

Lemma last_prices_lookup coin pre p post :
  p.1 ∉ fst <$> post →
  filter (λ x, x.1.1 = p.1) (written coin <$> last_prices (pre ++ p :: post))
  = [written coin p].
Proof.
  intros Hp. induction pre as [|x pre IH]; simpl.
  - rewrite decide_False by done. simpl.
    rewrite filter_cons_True by done. by rewrite last_prices_other.
  - rewrite fmap_app, filter_app, IH.
    destruct (decide (x.1 ∈ fst <$> pre ++ p :: post)) as [|Hx]; [done|].
    simpl. rewrite filter_cons_False, filter_nil; [done|].
    simpl. intros Heq. apply Hx. rewrite Heq, fmap_app, fmap_cons.
    apply elem_of_app. right. left.
Qed.

Lemma columns_rows_of_date d (db : price_history.table) :
  columns <$> rows_of_date d db = filter (λ x, x.1.1 = d) (columns <$> db).
Proof.
  unfold rows_of_date. induction db as [|r db IH]; [done|].
  rewrite fmap_cons, !filter_cons. simpl.
  destruct (decide (price_history.date r = d)); by rewrite ?fmap_cons, IH.
Qed.

(** X8: after [savePrices], the table holds under a date of the batch
    exactly one row: the price that the batch wrote last for that date,
    under the batch's coin, whatever coin held the date before; a date
    outside the batch keeps its row. *)
Theorem lookup_after_savePrices (clock : nat → string) (db : price_history.table)
    (coin : string) (pre post : list (Date.t * Qc)) (p : Date.t * Qc) (d : Date.t) :
  p.1 ∉ fst <$> post →
  d ∉ fst <$> pre ++ p :: post →
  columns <$> rows_of_date p.1 (savePrices clock db coin (pre ++ p :: post))
  = [(p.1, coin, p.2)]
  ∧ columns <$> rows_of_date d (savePrices clock db coin (pre ++ p :: post))
    = columns <$> rows_of_date d db.
Proof.
  intros Hp Hd. unfold savePrices.
  rewrite !columns_rows_of_date, columns_insertMany, !filter_app. split.
  - rewrite last_prices_lookup by done.
    rewrite filter_none; [done|]. apply Forall_forall.
    intros x [Hx _]%list_elem_of_filter Heq. apply Hx. rewrite Heq.
    rewrite fmap_app, fmap_cons. apply elem_of_app. right. left.
  - rewrite last_prices_other, app_nil_r by done.
    apply list_filter_filter_l. by intros x ->.
Qed.

Lemma lookup_after_savePrices_witness :
  columns <$> rows_of_date (Date.mk 2021 1 3)
                (savePrices PriceSamples.at_midnight
                   (savePrices PriceSamples.at_midnight [] "steem"
                      (fetchDailyHistory PriceSamples.steem_candles))
                   "hive" (fetchDailyHistory PriceSamples.hive_candles))
  = [(Date.mk 2021 1 3, "hive"%string, Q2Qc (3 # 4))]
  ∧ columns <$> rows_of_date (Date.mk 2021 1 1)
                  (savePrices PriceSamples.at_midnight
                     (savePrices PriceSamples.at_midnight [] "steem"
                        (fetchDailyHistory PriceSamples.steem_candles))
                     "hive" (fetchDailyHistory PriceSamples.hive_candles))
    = columns <$> rows_of_date (Date.mk 2021 1 1)
                    (savePrices PriceSamples.at_midnight [] "steem"
                       (fetchDailyHistory PriceSamples.steem_candles)).
Proof.
  apply (lookup_after_savePrices PriceSamples.at_midnight
           (savePrices PriceSamples.at_midnight [] "steem"
              (fetchDailyHistory PriceSamples.steem_candles))
           "hive" [] [(Date.mk 2021 1 4, Q2Qc 1)]
           (Date.mk 2021 1 3, Q2Qc (3 # 4)) (Date.mk 2021 1 1)).
  - apply (bool_decide_unpack _). vm_compute. reflexivity.
  - apply (bool_decide_unpack _). vm_compute. reflexivity.
Defined.

(** *** Invariants *)

Lemma price_insert_run_pk_unique now (db : price_history.table) coin p :
  date_unique db → date_unique (insert_run now db coin p).
Proof.
  unfold date_unique, insert_run. intros Hdb.
  rewrite fmap_app. apply NoDup_app. split; [|split].
  - induction db as [|r db IH]; [constructor|].
    rewrite fmap_cons in Hdb. apply NoDup_cons in Hdb as [Hr Hdb].
    rewrite filter_cons. destruct (decide _); [|by apply IH].
    rewrite fmap_cons. apply NoDup_cons. split; [|by apply IH].
    intros (r' & Hk & [_ Hin]%list_elem_of_filter)%list_elem_of_fmap.
    apply Hr, list_elem_of_fmap. by exists r'.
  - intros k (r & -> & [Hne _]%list_elem_of_filter)%list_elem_of_fmap.
    intros Heq%list_elem_of_singleton. by apply Hne.
  - apply NoDup_singleton.
Qed.

Lemma price_insertMany_pk_unique clock i (db : price_history.table) coin prices :
  date_unique db → date_unique (insertMany clock i db coin prices).
Proof.
  revert i db. induction prices as [|p rest IH]; intros i db Hdb; [done|].
  simpl. by apply IH, price_insert_run_pk_unique.
Qed.

Lemma fetch_and_save_invariants clock (db : price_history.table) coin res :
  positive_prices db → date_unique db →
  positive_prices (fetch_and_save clock db coin res)
  ∧ date_unique (fetch_and_save clock db coin res).
Proof.
  intros Hpos Hpk. unfold fetch_and_save, fetchDailyHistory_of.
  destruct (negb (ok res)); [done|].
  destruct (negb (bool_decide _)); [done|].
  destruct (0 <? _)%nat; [|done]. split.
  - by apply savePrices_positive.
  - by apply price_insertMany_pk_unique.
Qed.

(** X9: [main] keeps the table sound, whatever the two responses: if all
    stored prices were positive and no date was stored twice, the same
    holds afterwards. *)
Theorem price_main_keeps_invariants (clock_steem clock_hive : nat → string)
    (db : price_history.table) (steem hive : HttpResponse) :
  positive_prices db → date_unique db →
  positive_prices (main clock_steem clock_hive db steem hive)
  ∧ date_unique (main clock_steem clock_hive db steem hive).
Proof.
  intros Hpos Hpk. unfold main.
  destruct (fetch_and_save_invariants clock_steem db "steem" steem Hpos Hpk)
    as [Hpos' Hpk'].
  by apply fetch_and_save_invariants.
Qed.

Lemma price_main_keeps_invariants_witness :
  positive_prices
    (main PriceSamples.at_midnight PriceSamples.at_midnight []
       (success PriceSamples.steem_candles) (success PriceSamples.hive_candles))
  ∧ date_unique
      (main PriceSamples.at_midnight PriceSamples.at_midnight []
         (success PriceSamples.steem_candles) (success PriceSamples.hive_candles)).
Proof.
  apply (price_main_keeps_invariants
           PriceSamples.at_midnight PriceSamples.at_midnight []
           (success PriceSamples.steem_candles)
           (success PriceSamples.hive_candles)).
  - constructor.
  - constructor.
Defined.

(** *** Failures *)

(** X10: a step of [main] leaves the table as it is when the request fails
    (a status that is not ok, or an answer other than "Success") and when
    no candle has a positive close. *)
Theorem failed_fetch_leaves_table (clock : nat → string)
    (db : price_history.table) (coin : string) (res : HttpResponse) :
  ok res = false
  ∨ Response (json res) ≠ "Success"%string
  ∨ Forall (λ c, ¬ 0 < close c) (Data (json res)) →
  fetch_and_save clock db coin res = db.
Proof.
  unfold fetch_and_save, fetchDailyHistory_of.
  intros [Hok|[Hresp|Hnone]].
  - by rewrite Hok.
  - destruct (negb (ok res)); [done|].
    by rewrite bool_decide_eq_false_2.
  - destruct (negb (ok res)); [done|].
    destruct (negb (bool_decide _)); [done|].
    unfold fetchDailyHistory. rewrite filter_none; [done|].
    eapply Forall_impl; [exact Hnone|]. intros c Hc Hlt. apply Hc.
    by apply bool_decide_unpack in Hlt.
Qed.

Lemma failed_fetch_leaves_table_witness :
  fetch_and_save PriceSamples.at_midnight [] "steem" (failure 429) = [].
Proof.
  apply (failed_fetch_leaves_table PriceSamples.at_midnight [] "steem"
           (failure 429)).
  by left.
Defined.

(** *** Running [main] again *)

Lemma fetch_and_save_columns clock (db : price_history.table) coin res :
  columns <$> fetch_and_save clock db coin res
  = filter (λ x, x.1.1 ∉ fst <$> fetched_prices res) (columns <$> db)
    ++ (written coin <$> last_prices (fetched_prices res)).
Proof.
  unfold fetch_and_save, fetched_prices.
  destruct (fetchDailyHistory_of res) as [prices|e].
  - destruct prices as [|p prices]; [|apply columns_insertMany].
    simpl. rewrite app_nil_r. symmetry. apply filter_all, Forall_forall.
    intros x _. apply not_elem_of_nil.
  - simpl. rewrite app_nil_r. symmetry. apply filter_all, Forall_forall.
    intros x _. apply not_elem_of_nil.
Qed.

(** X11: running [main] a second time on the same two responses leaves
    every date with the coin and the price that the first run left: only
    [fetched_at] is renewed. *)
Theorem price_main_twice (c1 c2 c3 c4 : nat → string)
    (db : price_history.table) (steem hive : HttpResponse) :
  columns <$> main c3 c4 (main c1 c2 db steem hive) steem hive
  = columns <$> main c1 c2 db steem hive.
Proof.
  unfold main. rewrite !fetch_and_save_columns.
  set (S := fst <$> fetched_prices steem). set (H := fst <$> fetched_prices hive).
  set (LS := written "steem" <$> last_prices (fetched_prices steem)).
  set (LH := written "hive" <$> last_prices (fetched_prices hive)).
  rewrite !filter_app, !list_filter_filter.
  rewrite <-!app_assoc. f_equal.
  - apply list_filter_iff. tauto.
  - rewrite (filter_none _ LS), (filter_none _ LH), !app_nil_l; [done| |].
    + apply Forall_forall. intros x Hx [HnotH _].
      subst LH H. apply list_elem_of_fmap in Hx as (p & -> & Hp%last_prices_subset).
      apply HnotH. simpl. by apply list_elem_of_fmap_2.
    + apply Forall_forall. intros x Hx [[_ HnotS] _].
      subst LS S. apply list_elem_of_fmap in Hx as (p & -> & Hp%last_prices_subset).
      apply HnotS. simpl. by apply list_elem_of_fmap_2.
Qed.

End MorePriceFacts.

(** ** More on the dashboard queries *)

Module MoreServerFacts.

Import JS Server Spec ServerFacts FetchMain Policy Accuracy.
Local Open Scope Qc_scope.

Lemma StronglySorted_impl {A} (R R' : A → A → Prop) l :
  (∀ a b, R a b → R' a b) → StronglySorted R l → StronglySorted R' l.
Proof.
  intros HR. induction 1 as [|a l Hl IH Ha]; constructor; [done|].
  eapply Forall_impl; [exact Ha|]. intros b. apply HR.
Qed.

Lemma StronglySorted_fmap_2 {A B} (f : A → B) (R : B → B → Prop) (l : list A) :
  StronglySorted (λ a b, R (f a) (f b)) l → StronglySorted R (f <$> l).
Proof.
  induction 1 as [|a l Hl IH Ha]; [constructor|].
  rewrite fmap_cons. constructor; [done|]. by rewrite Forall_fmap.
Qed.

(** *** The weekly rows *)

(** X12: [getWeeklyStats] returns every stored week once, in strictly
    ascending order of (year, week), whatever the rowid order of the
    table. *)
Theorem weekly_rows_in_key_order (AVG : list Qc → Qc)
    (db : weekly_stats.table) (ph : price_history.table) :
  weekly_stats.pk_unique db →
  ws <$> getWeeklyStats AVG db ph ≡ₚ db
  ∧ StronglySorted
      (λ a b, key_lt (weekly_stats.key (ws a)) (weekly_stats.key (ws b)))
      (getWeeklyStats AVG db ph).
Proof.
  intros Hpk.
  assert (Hperm : ws <$> getWeeklyStats AVG db ph ≡ₚ db).
  { unfold getWeeklyStats. rewrite order_by_perm, <-list_fmap_compose.
    rewrite (list_fmap_ext _ id); [by rewrite list_fmap_id|done]. }
  split; [done|].
  apply (StronglySorted_strict (λ w, weekly_stats.key (ws w)) (λ a b, key_leb a b)).
  - unfold getWeeklyStats. apply order_by_sorted.
    + intros a b. apply key_leb_total.
    + intros a b c. apply key_leb_trans.
  - assert (Heq : (λ w, weekly_stats.key (ws w)) <$> getWeeklyStats AVG db ph
                 = weekly_stats.key <$> (ws <$> getWeeklyStats AVG db ph))
      by (by rewrite <-list_fmap_compose).
    rewrite Heq, Hperm. exact Hpk.
Qed.

Lemma weekly_rows_in_key_order_witness :
  ws <$> getWeeklyStats Binary64.avg Samples.reprocessed Samples.three_prices
  ≡ₚ Samples.reprocessed
  ∧ StronglySorted
      (λ a b, key_lt (weekly_stats.key (ws a)) (weekly_stats.key (ws b)))
      (getWeeklyStats Binary64.avg Samples.reprocessed Samples.three_prices).
Proof.
  apply (weekly_rows_in_key_order Binary64.avg
           Samples.reprocessed Samples.three_prices).
  apply (bool_decide_unpack _). vm_compute. reflexivity.
Defined.

(** *** The years *)

Lemma yearOverYear_years fl AVG db ph :
  YearOverYear.year <$> yearOverYear_of fl AVG db ph = yr_year <$> yearRows AVG db.
Proof.
  apply list_eq. intros i. unfold yearOverYear_of.
  rewrite !list_lookup_fmap, list_lookup_imap.
  by destruct (yearRows AVG db !! i).
Qed.

Lemma yearRows_years AVG db :
  yr_year <$> yearRows AVG db ≡ₚ remove_dups (weekly_stats.year <$> db).
Proof.
  unfold yearRows. rewrite order_by_perm.
  by rewrite group_by_keys by (by intros ??).
Qed.

Lemma yearRows_sorted AVG db :
  StronglySorted (λ a b, (yr_year a < yr_year b)%Z) (yearRows AVG db).
Proof.
  apply (StronglySorted_impl (λ a b, (yr_year a <=? yr_year b)%Z ∧ yr_year a ≠ yr_year b)).
  - intros a b [Hle%Is_true_true%Z.leb_le Hne]. lia.
  - apply (StronglySorted_strict yr_year (λ x y, (x <=? y)%Z)).
    + unfold yearRows. apply order_by_sorted.
      * intros a b Hab. apply Is_true_true, Z.leb_le.
        destruct (Z.leb_spec (yr_year a) (yr_year b)) as [Hle|Hlt]; [|lia].
        exfalso. by apply Hab.
      * intros a b c Hab%Is_true_true%Z.leb_le Hbc%Is_true_true%Z.leb_le.
        apply Is_true_true, Z.leb_le. lia.
    + rewrite yearRows_years. apply NoDup_remove_dups.
Qed.

(** X13: the year-over-year view has one entry for every year that has a
    stored week, and no other, in strictly ascending order of the year. *)
Theorem one_entry_per_year (fl : Qc → Qc) (AVG : list Qc → Qc)
    (db : weekly_stats.table) (ph : price_history.table) :
  StronglySorted Z.lt (YearOverYear.year <$> yearOverYear_of fl AVG db ph)
  ∧ ∀ y, y ∈ YearOverYear.year <$> yearOverYear_of fl AVG db ph
         ↔ ∃ r, r ∈ db ∧ weekly_stats.year r = y.
Proof.
  rewrite yearOverYear_years. split.
  - apply StronglySorted_fmap_2, yearRows_sorted.
  - intros y. rewrite yearRows_years, elem_of_remove_dups, list_elem_of_fmap.
    split; intros (r & ? & ?); by exists r.
Qed.

(** *** Rounding *)













(** *** Means *)





(** *** The summary *)

Lemma getStats_summary fl AVG Math_sqrt db ph resp :
  getStats fl AVG Math_sqrt db ph = Ok resp →
  db ≠ []
  ∧ totalWeeks (summary resp) = Z.of_nat (length db)
  ∧ totalUserWeeks (summary resp) = Some (sum_of weekly_stats.total_users db)
  ∧ totalPosts (summary resp) = Some (sum_of weekly_stats.total_posts db)
  ∧ totalComments (summary resp) = Some (sum_of weekly_stats.total_comments db)
  ∧ avgWeeklyUsers (summary resp)
    = Math_round (AVG ((λ r, of_Z (weekly_stats.total_users r)) <$> db))
  ∧ description (correlations (insights resp))
    = correlationDesc (correlation fl AVG Math_sqrt db ph).
Proof.
  unfold getStats. destruct db as [|r db]; [done|].
  destruct (peakRow (r :: db)) as [peak|]; [|done].
  destruct (lastCompleteWeekRow (r :: db)) as [last|]; [|done].
  simpl. by intros [= <-].
Qed.

Lemma yearOverYear_posts fl AVG db ph :
  YearOverYear.totalPosts <$> yearOverYear_of fl AVG db ph
  = yr_total_posts <$> yearRows AVG db.
Proof.
  apply list_eq. intros i. unfold yearOverYear_of.
  rewrite !list_lookup_fmap, list_lookup_imap.
  by destruct (yearRows AVG db !! i).
Qed.

Lemma yearOverYear_comments fl AVG db ph :
  YearOverYear.totalComments <$> yearOverYear_of fl AVG db ph
  = yr_total_comments <$> yearRows AVG db.
Proof.
  apply list_eq. intros i. unfold yearOverYear_of.
  rewrite !list_lookup_fmap, list_lookup_imap.
  by destruct (yearRows AVG db !! i).
Qed.

Lemma sum_of_as_fmap {A} (f : A → Z) l : sum_of f l = sum_of id (f <$> l).
Proof. by rewrite sum_of_fmap. Qed.

Lemma sum_of_yearRows_posts AVG db :
  sum_of yr_total_posts (yearRows AVG db) = sum_of weekly_stats.total_posts db.
Proof.
  unfold yearRows. rewrite (sum_of_perm _ _ _ (order_by_perm _ _)), sum_of_fmap.
  rewrite <-(sum_of_group_by weekly_stats.year weekly_stats.total_posts db).
  apply sum_of_ext, Forall_forall. by intros [y g] _.
Qed.

Lemma sum_of_yearRows_comments AVG db :
  sum_of yr_total_comments (yearRows AVG db) = sum_of weekly_stats.total_comments db.
Proof.
  unfold yearRows. rewrite (sum_of_perm _ _ _ (order_by_perm _ _)), sum_of_fmap.
  rewrite <-(sum_of_group_by weekly_stats.year weekly_stats.total_comments db).
  apply sum_of_ext, Forall_forall. by intros [y g] _.
Qed.

(** X14: the totals of the summary are the totals of the years: the posts
    and the comments of the year-over-year entries add up to [totalPosts]
    and [totalComments], and [totalWeeks] counts the weekly rows of the
    response. *)
Theorem yearly_totals_add_up
    (fl : Qc → Qc) (AVG : list Qc → Qc) (Math_sqrt : Qc → Qc)
    (db : weekly_stats.table) (ph : price_history.table) (resp : StatsResponse) :
  getStats fl AVG Math_sqrt db ph = Ok resp →
  totalPosts (summary resp)
  = Some (sum_of YearOverYear.totalPosts (yearOverYear (insights resp)))
  ∧ totalComments (summary resp)
    = Some (sum_of YearOverYear.totalComments (yearOverYear (insights resp)))
  ∧ totalWeeks (summary resp) = Z.of_nat (length (weeklyStats resp)).
Proof.
  intros Hok.
  destruct (getStats_summary _ _ _ _ _ _ Hok) as (_ & -> & _ & -> & -> & _).
  destruct (getStats_Ok _ _ _ _ _ _ Hok)
    as (_ & _ & _ & _ & -> & _ & _ & _ & _ & -> & _).
  rewrite (sum_of_as_fmap YearOverYear.totalPosts), yearOverYear_posts.
  rewrite (sum_of_as_fmap YearOverYear.totalComments), yearOverYear_comments.
  rewrite <-!sum_of_as_fmap, sum_of_yearRows_posts, sum_of_yearRows_comments.
  repeat split. unfold getWeeklyStats. by rewrite order_by_length, length_fmap.
Qed.

Lemma yearly_totals_add_up_witness :
  ∃ resp,
    getStats Binary64.round Binary64.avg Samples.sqrt_on_squares
      Samples.three_years Samples.three_prices = Ok resp
    ∧ totalPosts (summary resp)
      = Some (sum_of YearOverYear.totalPosts (yearOverYear (insights resp)))
    ∧ totalComments (summary resp)
      = Some (sum_of YearOverYear.totalComments (yearOverYear (insights resp)))
    ∧ totalWeeks (summary resp) = Z.of_nat (length (weeklyStats resp)).
Proof.
  eexists. split; [reflexivity|].
  match goal with
  | |- context [insights ?r] =>
      exact (yearly_totals_add_up Binary64.round Binary64.avg
               Samples.sqrt_on_squares Samples.three_years
               Samples.three_prices r eq_refl)
  end.
Defined.





(** *** The activity distribution *)





(** The rounded shares of [ServerSamples.thirds] add up to 99.9. *)
Example percentages_of_thirds :
  ∃ resp,
    getStats exact Binary64.avg Samples.sqrt_on_squares ServerSamples.thirds [] = Ok resp
    ∧ ultraActive (activityDistribution (insights resp)) = Fin (Q2Qc (333 # 10))
    ∧ veryActive (activityDistribution (insights resp)) = Fin (Q2Qc (333 # 10))
    ∧ active (activityDistribution (insights resp)) = Fin (Q2Qc (333 # 10))
    ∧ occasional (activityDistribution (insights resp)) = Fin 0
    ∧ lowActivity (activityDistribution (insights resp)) = Fin 0.
Proof.
  eexists. split; [reflexivity|].
  repeat split; by apply (bool_decide_eq_true_1 _).
Qed.

(** *** The weekly price *)

Lemma price_joins_policy w p :
  price_joins w p
  ↔ in_week (weekly_stats.week_start w) (price_history.date p)
    ∧ price_history.coin p = coin_of_year (weekly_stats.year w).
Proof.
  unfold price_joins, in_week, coin_of_year.
  rewrite !andb_True, orb_True, !andb_True, !bool_decide_spec.
  destruct (Z.ltb_spec (weekly_stats.year w) 2020) as [Hlt|Hge].
  - rewrite (proj2 (Z.leb_gt _ _) Hlt). simpl. tauto.
  - rewrite (proj2 (Z.leb_le _ _) Hge). simpl. tauto.
Qed.

Lemma filter_price_joins w ph :
  filter (price_joins w) ph = prices_of_week w ph.
Proof.
  unfold prices_of_week. apply list_filter_iff. intros p.
  apply price_joins_policy.
Qed.

(** X17: the price of a weekly row is SQLite's [AVG] over the daily prices
    that fall in the seven days from the week's start on and are of the coin
    of the week's year, STEEM before 2020 and HIVE from 2020 on, in the
    order of the table; it is absent exactly when there is no such
    price. *)
Theorem weekly_price_follows_coin_policy (AVG : list Qc → Qc)
    (db : weekly_stats.table) (ph : price_history.table) (w : WeeklyStatsRow) :
  w ∈ getWeeklyStats AVG db ph →
  (avg_price w = None ↔ prices_of_week (ws w) ph = [])
  ∧ ∀ p, avg_price w = Some p →
      p = AVG (price_history.price_usd <$> prices_of_week (ws w) ph).
Proof.
  intros [_ ->]%getWeeklyStats_elem. rewrite filter_price_joins.
  unfold sql_avg.
  destruct (price_history.price_usd <$> prices_of_week (ws w) ph) as [|q l] eqn:Hl.
  - apply fmap_nil_inv in Hl. by rewrite Hl.
  - split.
    + split; [done|]. intros Hnil. by rewrite Hnil in Hl.
    + by intros p [= <-].
Qed.

(** With doubles and a plain summation, a week with the price 0.1 on
    three days has the average 0.10000000000000002, above each of the
    three. *)
Lemma weekly_price_follows_coin_policy_witness :
  ∃ w,
    getWeeklyStats Binary64.avg Samples.two_weeks ServerSamples.three_tenths !! 0%nat
    = Some w
    ∧ avg_price w = Some (Q2Qc (7205759403792795 # 72057594037927936))
    ∧ Samples.real (1 # 10) < Q2Qc (7205759403792795 # 72057594037927936).
Proof.
  eexists. split; [reflexivity|].
  split; [|apply (bool_decide_unpack _); vm_compute; exact I].
  match goal with
  | |- avg_price ?w = _ =>
      destruct (weekly_price_follows_coin_policy Binary64.avg
                  Samples.two_weeks ServerSamples.three_tenths w) as [_ Hvalue]
  end.
  - apply (list_elem_of_lookup_2 _ 0%nat). reflexivity.
  - destruct (avg_price _) as [p|] eqn:Hp; [|vm_compute in Hp; discriminate Hp].
    rewrite (Hvalue p eq_refl). by_double_evaluation.
Defined.

(** The first week of [Samples.two_weeks] has the average of the prices of
    1 and 2 January. *)
Example weekly_price_of_first_week :
  avg_price <$> getWeeklyStats Binary64.avg Samples.two_weeks Samples.three_prices
  = [Some (of_Z 2); Some (of_Z 5)].
Proof. by_double_evaluation. Qed.

(** *** The correlation *)

Lemma products_comm fl (x y : list Qc) : products fl x y = products fl y x.
Proof.
  unfold products. revert y. induction x as [|a x IH]; intros [|b y]; simpl; try done.
  by rewrite IH, (Qcmult_comm a b).
Qed.

(** X18: the correlation does not depend on which of the two series comes
    first, whatever the rounding and whatever [Math.sqrt] returns; that
    holds for series of different lengths too, which give 0. *)
Theorem correlation_is_symmetric (fl : Qc → Qc) (Math_sqrt : Qc → Qc)
    (x y : list Qc) :
  calculateCorrelation fl Math_sqrt x y = calculateCorrelation fl Math_sqrt y x.
Proof.
  destruct (decide (length x = length y)) as [Hlen|Hlen].
  - destruct (decide (x = [])) as [->|Hx].
    + destruct y; [done|discriminate Hlen].
    + assert (Hy : y ≠ []) by (intros ->; by destruct x).
      rewrite !calculateCorrelation_pearson by done.
      unfold pearson_r.
      replace (covariance fl y x) with (covariance fl x y).
      * by rewrite (Qcmult_comm (spread fl x)).
      * unfold covariance. rewrite (products_comm fl x y), Hlen.
        by rewrite (Qcmult_comm (sigma fl x)).
  - rewrite !calculateCorrelation_guard; [done|left; congruence|by left].
Qed.

End MoreServerFacts.

(** ** The route [/api/stats] *)

Module ApiFacts.

Import JS Server ServerFacts.
Local Open Scope Qc_scope.

Lemma inf_of_sign_rounded fl (s : Z) : rounded fl (inf_of_sign s) = inf_of_sign s.
Proof.
  unfold inf_of_sign. destruct (0 <? s)%Z; [done|]. by destruct (s <? 0)%Z.
Qed.

Lemma served_change_from_zero fl a :
  fixed_if_truthy 1 (Some (change fl a 0)) ≫= Api.json_number = None.
Proof.
  unfold change. cbn [sub rounded div].
  rewrite (proj2 (Qc_eqb_eq 0 0) eq_refl), inf_of_sign_rounded.
  destruct (inf_of_sign _) eqn:Hs.
  - unfold inf_of_sign in Hs. destruct (0 <? _)%Z; [done|]. by destruct (_ <? 0)%Z.
  - reflexivity.
  - reflexivity.
  - reflexivity.
Qed.

Lemma api_stats_Ok fl AVG Math_sqrt db ph json :
  Api.api_stats fl AVG Math_sqrt db ph = Ok json →
  ∃ resp, getStats fl AVG Math_sqrt db ph = Ok resp ∧ json = Api.Response_json resp.
Proof.
  unfold Api.api_stats.
  destruct (getStats fl AVG Math_sqrt db ph) as [resp|e]; [|done].
  simpl. intros [= <-]. by exists resp.
Qed.

(** X20: in the JSON of [/api/stats], the [changePercent] of a year is
    [null] exactly for the first year, for a year whose average of weekly
    users equals the one of the year before, and for a year that follows a
    year with an average of zero: the infinite and undefined changes that
    [getStats] computes after such a year are written as [null].  That
    holds for every rounding that keeps the sign. *)
Theorem served_changePercent_null_iff
    (fl : Qc → Qc) (AVG : list Qc → Qc) (Math_sqrt : Qc → Qc)
    (db : weekly_stats.table) (ph : price_history.table) (json : Api.StatsJson)
    (i : nat) (row : YearRow) :
  keeps_sign fl →
  Api.api_stats fl AVG Math_sqrt db ph = Ok json →
  yearRows AVG db !! i = Some row →
  ∃ y, Api.yearOverYear (Api.insights json) !! i = Some y
       ∧ Api.year y = yr_year row
       ∧ (Api.changePercent y = None
          ↔ i = 0%nat
            ∨ ∃ prev, yearRows AVG db !! (i - 1)%nat = Some prev
                ∧ (avg_weekly_users prev = 0
                   ∨ avg_weekly_users row = avg_weekly_users prev)).
Proof.
  intros Hfl (resp & Hok & ->)%api_stats_Ok Hrow.
  destruct (getStats_Ok _ _ _ _ _ _ Hok)
    as (_ & _ & _ & _ & _ & _ & _ & _ & _ & Hyoy & _).
  destruct (yearOverYear_lookup fl AVG db ph _ _ Hrow) as (y & Hy & Hyear & _ & Hc).
  exists (Api.year_json y). split; [|split].
  - simpl. by rewrite Hyoy, list_lookup_fmap, Hy.
  - done.
  - assert (Hserved : Api.changePercent (Api.year_json y)
                      = fixed_if_truthy 1
                          (changePercent_raw fl row (prevYear (yearRows AVG db) i))
                        ≫= Api.json_number) by (by rewrite <-Hc).
    rewrite Hserved. destruct i as [|j]; [by split; [left|]|].
    destruct (lookup_lt_is_Some_2 (yearRows AVG db) j) as [prev Hprev].
    { apply lookup_lt_Some in Hrow. lia. }
    assert (Hp : prevYear (yearRows AVG db) (S j) = Some prev).
    { unfold prevYear. simpl. by rewrite Nat.sub_0_r. }
    rewrite Hp. cbn [changePercent_raw].
    replace (S j - 1)%nat with j by lia.
    destruct (decide (avg_weekly_users prev = 0)) as [H0|H0].
    { rewrite H0, served_change_from_zero.
      split; [|done]. intros _. right. exists prev. split; [done|by left]. }
    destruct (decide (avg_weekly_users row = avg_weekly_users prev)) as [Ha|Ha].
    { rewrite Ha. cbn [fixed_if_truthy].
      rewrite change_same by (by apply keeps_sign_0).
      split; [|done]. intros _. right. exists prev. split; [done|by right]. }
    destruct (change_finite fl _ _ Hfl H0 Ha) as [Hchange Htruthy].
    cbn [fixed_if_truthy]. rewrite Htruthy, Hchange.
    split; [done|]. intros [?|(prev' & Hprev' & Hcase)]; [done|].
    rewrite Hprev in Hprev'. injection Hprev' as <-. by destruct Hcase.
Qed.

Lemma served_changePercent_null_iff_witness :
  ∃ json,
    Api.api_stats Binary64.round Binary64.avg Samples.sqrt_on_squares
      Samples.three_years [] = Ok json
    ∧ ∃ y, Api.yearOverYear (Api.insights json) !! 1%nat = Some y
        ∧ Api.year y = 2020%Z
        ∧ Api.changePercent y = None.
Proof.
  eexists. split; [reflexivity|].
  match goal with
  | |- context [Api.insights ?j] =>
      destruct (served_changePercent_null_iff
                  Binary64.round Binary64.avg Samples.sqrt_on_squares
                  Samples.three_years [] j 1%nat _
                  Binary64Facts.round_keeps_sign eq_refl eq_refl)
        as (y & Hy & Hyear & Hnull)
  end.
  exists y. split; [exact Hy|]. split; [exact Hyear|].
  apply Hnull. right. eexists. split; [reflexivity|].
  left. by_double_evaluation.
Defined.

Lemma percentage_of_nothing fl tier :
  Api.json_number (percentage fl tier 0) = None.
Proof.
  unfold percentage, div. rewrite (proj2 (Qc_eqb_eq (of_Z 0) 0) Z2Qc_inj_0).
  unfold inf_of_sign. destruct (0 <? sgn _)%Z; [reflexivity|].
  destruct (sgn _ <? 0)%Z; reflexivity.
Qed.

(** X21: in the JSON of [/api/stats], the five percentages of the activity
    distribution are numbers when the grand total of the tiers is not zero,
    and all [null] when it is zero. *)
Theorem served_distribution_null_iff
    (fl : Qc → Qc) (AVG : list Qc → Qc) (Math_sqrt : Qc → Qc)
    (db : weekly_stats.table) (ph : price_history.table) (json : Api.StatsJson) :
  Api.api_stats fl AVG Math_sqrt db ph = Ok json →
  let i := Api.insights json in
  (totalTiers (tierRow db) = 0%Z →
   Api.ultraActive i = None ∧ Api.veryActive i = None ∧ Api.active i = None
   ∧ Api.occasional i = None ∧ Api.lowActivity i = None)
  ∧ (totalTiers (tierRow db) ≠ 0%Z →
     is_Some (Api.ultraActive i) ∧ is_Some (Api.veryActive i)
     ∧ is_Some (Api.active i) ∧ is_Some (Api.occasional i)
     ∧ is_Some (Api.lowActivity i)).
Proof.
  intros (resp & Hok & ->)%api_stats_Ok.
  destruct (getStats_Ok _ _ _ _ _ _ Hok)
    as (_ & _ & _ & _ & _ & _ & _ & _ & _ & _ & _ & Hdist).
  simpl. rewrite Hdist. simpl. split.
  - intros ->. by rewrite !percentage_of_nothing.
  - intros Htotal. rewrite !percentage_nonzero by done. simpl.
    by repeat split.
Qed.

Lemma served_distribution_null_iff_witness :
  ∃ json,
    Api.api_stats Binary64.round Binary64.avg Samples.sqrt_on_squares
      Samples.two_empty_weeks [] = Ok json
    ∧ Api.ultraActive (Api.insights json) = None
    ∧ Api.veryActive (Api.insights json) = None
    ∧ Api.active (Api.insights json) = None
    ∧ Api.occasional (Api.insights json) = None
    ∧ Api.lowActivity (Api.insights json) = None.
Proof.
  eexists. split; [reflexivity|].
  match goal with
  | |- context [Api.insights ?j] =>
      apply (proj1 (served_distribution_null_iff
                      Binary64.round Binary64.avg Samples.sqrt_on_squares
                      Samples.two_empty_weeks [] j eq_refl))
  end.
  reflexivity.
Defined.

End ApiFacts.

(** ** From the backfill to the dashboard *)

Module PipelineFacts.

Import Server ServerFacts.

(** X22: after [main] of the fetch script has filled an empty database
    from calendar dates, the peak week that [getStats] reports has the
    highest number of users, and among the weeks with that number it is the
    earliest one. *)
Theorem peak_after_backfill (datepart_week : Date.t → Z)
    (fl : Qc → Qc) (AVG : list Qc → Qc) (Math_sqrt : Qc → Qc)
    (clock : Z → nat → string) (Comments : list Fetch.Comment) (endYear : Z)
    (ph : price_history.table) (resp : StatsResponse) :
  let db := FetchMain.main datepart_week clock Comments [] endYear in
  Forall (λ c, FetchMain.calendar_date (Fetch.created c)) Comments →
  getStats fl AVG Math_sqrt db ph = Ok resp →
  ∃ r, r ∈ db
       ∧ peakWeeklyUsers (summary resp) = weekly_stats.total_users r
       ∧ peakWeekDate (summary resp) = weekly_stats.week_start r
       ∧ ∀ r', r' ∈ db →
           (weekly_stats.total_users r' <= weekly_stats.total_users r)%Z
           ∧ (weekly_stats.total_users r' = weekly_stats.total_users r →
              r' = r
              ∨ FetchMain.key_lt (weekly_stats.key r) (weekly_stats.key r')).
Proof.
  intros db Hdates (peak & _ & Hpeak & _ & _ & -> & -> & _)%getStats_Ok.
  destruct (MoreFetchFacts.main_sorted datepart_week clock Comments endYear Hdates)
    as [_ Hsorted]. fold db in Hsorted.
  unfold peakRow in Hpeak.
  destruct (order_by _ db) as [|p s] eqn:Hs; [done|]. injection Hpeak as ->.
  destruct (order_by_desc_head weekly_stats.total_users db peak s Hs)
    as (i & Hi & Hmax & Hfirst).
  exists peak. split; [by eapply list_elem_of_lookup_2|]. do 2 (split; [done|]).
  intros r' Hr'. split; [by apply Hmax|].
  intros Heq. destruct (list_elem_of_lookup_1 _ _ Hr') as [j Hj].
  specialize (Hfirst j r' Hj Heq).
  destruct (decide (i = j)) as [->|Hij].
  - left. rewrite Hi in Hj. by injection Hj.
  - right. apply (StronglySorted_lookup _ db i j peak r' Hsorted); [lia|done|done].
Qed.

Lemma peak_after_backfill_witness :
  let db := FetchMain.main Samples.datepart_week_us (λ _, Samples.at_noon)
              Samples.comments_2021 [] 2021 in
  ∃ resp,
    getStats Binary64.round Binary64.avg Samples.sqrt_on_squares db [] = Ok resp
    ∧ ∃ r, r ∈ db
         ∧ peakWeeklyUsers (summary resp) = weekly_stats.total_users r
         ∧ peakWeekDate (summary resp) = weekly_stats.week_start r
         ∧ ∀ r', r' ∈ db →
             (weekly_stats.total_users r' <= weekly_stats.total_users r)%Z
             ∧ (weekly_stats.total_users r' = weekly_stats.total_users r →
                r' = r
                ∨ FetchMain.key_lt (weekly_stats.key r) (weekly_stats.key r')).
Proof.
  intros db. eexists. split; [vm_compute; reflexivity|].
  match goal with
  | |- context [summary ?r] =>
      apply (peak_after_backfill Samples.datepart_week_us
               Binary64.round Binary64.avg Samples.sqrt_on_squares
               (λ _, Samples.at_noon) Samples.comments_2021 2021 [] r)
  end.
  - apply (bool_decide_unpack _). vm_compute. reflexivity.
  - vm_compute. reflexivity.
Defined.

End PipelineFacts.
